(** * H1ScopeHarvester: a shallow embedding of [hackerone_fetch_domains.py]

    The development follows the layout of the script: configuration
    constants, Python strings and the regular expression used by the
    classifier, decoded JSON values with the dictionary operations the
    script applies to them, the world the script runs in (clock, cache
    file, semaphore, HTTP peer), and then the functions of the script in
    source order. *)

From Stdlib Require Import ZArith Ascii String List Bool Lia Permutation.
From stdpp Require Import gmap strings sorting.

Import ListNotations.
Local Open Scope string_scope.
Local Open Scope Z_scope.

Set Default Proof Using "Type".
Set Warnings "-register-all".

(** ** Configuration (lines 11-23 of the script) *)

Definition MAX_REQUESTS_PER_MINUTE : Z := 600.
Definition MAX_RETRIES : nat := 3.
Definition PAGE_SIZE : Z := 100.
Definition MAX_WORKERS : Z := 10.
Definition CACHE_EXPIRY_DAYS : Z := 30.

(** Durations and instants are counted in microseconds, the resolution
    of [datetime] and [timedelta]. *)
Definition usec_per_second : Z := 1000000.
Definition usec_per_day : Z := 86400 * usec_per_second.

(** [RATE_LIMIT_DELAY = 60 / MAX_REQUESTS_PER_MINUTE] seconds. *)
Definition RATE_LIMIT_DELAY : Z := 60 * usec_per_second / MAX_REQUESTS_PER_MINUTE.

(** [Semaphore(MAX_REQUESTS_PER_MINUTE // 60)] *)
Definition semaphore_capacity : Z := MAX_REQUESTS_PER_MINUTE / 60.

(** ** Python strings

    A [str] is modelled by a [string] whose characters are the code
    points below 256. *)
Module PyStr.

Definition code (c : ascii) : N := N_of_ascii c.

(** [str.lower] on one code point: A-Z and the Latin-1 capitals. *)
Definition lower_char (c : ascii) : ascii :=
  let n := code c in
  if ((65 <=? n) && (n <=? 90))%N then ascii_of_N (n + 32)
  else if ((192 <=? n) && (n <=? 222) && negb (n =? 215))%N then ascii_of_N (n + 32)
  else c.

Fixpoint lower (s : string) : string :=
  match s with
  | EmptyString => EmptyString
  | String c s' => String (lower_char c) (lower s')
  end.

(** [str.isspace] on one code point. *)
Definition is_space (c : ascii) : bool :=
  let n := code c in
  (((9 <=? n) && (n <=? 13)) || ((28 <=? n) && (n <=? 32))
   || (n =? 133) || (n =? 160))%N.

Fixpoint lstrip (s : string) : string :=
  match s with
  | EmptyString => EmptyString
  | String c s' => if is_space c then lstrip s' else s
  end.

Fixpoint rstrip (s : string) : string :=
  match s with
  | EmptyString => EmptyString
  | String c s' =>
      match rstrip s' with
      | EmptyString => if is_space c then EmptyString else String c EmptyString
      | t => String c t
      end
  end.

Definition strip (s : string) : string := rstrip (lstrip s).

Definition startswith (s pre : string) : bool := String.prefix pre s.

(** [sub in s] for two strings: substring test. *)
Fixpoint contains (sub s : string) : bool :=
  String.prefix sub s
  || match s with
     | EmptyString => false
     | String _ s' => contains sub s'
     end.

Fixpoint rev_acc (acc s : string) : string :=
  match s with
  | EmptyString => acc
  | String c s' => rev_acc (String c acc) s'
  end.

(** [s.split(sep)] for a non-empty separator: a left-to-right scan
    cutting at each non-overlapping occurrence.  [skip] counts the
    characters of a separator just found that are still to be passed
    over, [acc] holds the current piece, reversed. *)
Fixpoint split_from (sep : string) (skip : nat) (acc : string) (s : string)
  : list string :=
  match s with
  | EmptyString => [rev_acc EmptyString acc]
  | String c s' =>
      match skip with
      | S k => split_from sep k acc s'
      | O =>
          if String.prefix sep s
          then rev_acc EmptyString acc
                 :: split_from sep (Nat.pred (String.length sep)) EmptyString s'
          else split_from sep O (String c acc) s'
      end
  end.

Definition split (s sep : string) : list string :=
  split_from sep O EmptyString s.

(** [l[0]] and [l[-1]] on the result of a split, which is never empty. *)
Definition first (l : list string) : string := hd EmptyString l.
Definition last (l : list string) : string := List.last l EmptyString.

End PyStr.

(** ** Regular expressions, as far as the script uses [re]

    The abstract syntax covers what the pattern of [categorize_domain]
    is built from: literal characters, character classes, the dot,
    concatenation and repetition.  [Void] and [Alt] only arise in
    derivatives. *)
Module Re.

Inductive regex : Type :=
| Void
| Eps
| Sym (p : ascii -> bool)
| Cat (r1 r2 : regex)
| Alt (r1 r2 : regex)
| Star (r : regex).

(** [\c]: exactly the character [c]. *)
Definition lit (c : ascii) : regex := Sym (Ascii.eqb c).

(** [[^c]]: every character but [c], line feed included. *)
Definition not_lit (c : ascii) : regex := Sym (fun x => negb (Ascii.eqb c x)).

(** [.] without [re.DOTALL]: every character but line feed. *)
Definition newline : ascii := ascii_of_N 10.
Definition dot : regex := Sym (fun x => negb (Ascii.eqb newline x)).

(** [r+] *)
Definition plus (r : regex) : regex := Cat r (Star r).

(** The strings a pattern matches in full. *)
Inductive matches : regex -> string -> Prop :=
| M_eps : matches Eps EmptyString
| M_sym p c : p c = true -> matches (Sym p) (String c EmptyString)
| M_cat r1 r2 s1 s2 :
    matches r1 s1 -> matches r2 s2 -> matches (Cat r1 r2) (s1 +:+ s2)
| M_alt_l r1 r2 s : matches r1 s -> matches (Alt r1 r2) s
| M_alt_r r1 r2 s : matches r2 s -> matches (Alt r1 r2) s
| M_star_nil r : matches (Star r) EmptyString
| M_star_app r s1 s2 :
    matches r s1 -> matches (Star r) s2 -> matches (Star r) (s1 +:+ s2).

Fixpoint nullable (r : regex) : bool :=
  match r with
  | Void => false
  | Eps => true
  | Sym _ => false
  | Cat r1 r2 => nullable r1 && nullable r2
  | Alt r1 r2 => nullable r1 || nullable r2
  | Star _ => true
  end.

Fixpoint deriv (c : ascii) (r : regex) : regex :=
  match r with
  | Void => Void
  | Eps => Void
  | Sym p => if p c then Eps else Void
  | Cat r1 r2 =>
      if nullable r1
      then Alt (Cat (deriv c r1) r2) (deriv c r2)
      else Cat (deriv c r1) r2
  | Alt r1 r2 => Alt (deriv c r1) (deriv c r2)
  | Star r1 => Cat (deriv c r1) (Star r1)
  end.

(** [re.match(r, s)] finds a match: some prefix of [s], starting at
    position 0, is matched by [r]. *)
Fixpoint re_match (r : regex) (s : string) : bool :=
  nullable r
  || match s with
     | EmptyString => false
     | String c s' => re_match (deriv c r) s'
     end.

End Re.

(** ** Domain classifier (lines 101-119) *)

Inductive category : Type := standard | simple_wildcard | wildcard_tld.

#[global] Instance category_eq_dec : EqDecision category.
Proof. solve_decision. Defined.

(** The dictionary key each category is spelled with in the script. *)
Definition category_name (c : category) : string :=
  match c with
  | standard => "standard"
  | simple_wildcard => "simple_wildcard"
  | wildcard_tld => "wildcard_tld"
  end.

(** [r'^\*\.[^.]+\..*\*']; the leading [^] holds at position 0, where
    [re.match] starts. *)
Definition wildcard_tld_pattern : Re.regex :=
  Re.Cat (Re.lit "*")
    (Re.Cat (Re.lit ".")
       (Re.Cat (Re.plus (Re.not_lit "."))
          (Re.Cat (Re.lit ".")
             (Re.Cat (Re.Star Re.dot) (Re.lit "*"))))).

(** [domain.split(':')[0]] *)
Definition clean_domain_of (domain : string) : string :=
  PyStr.first (PyStr.split domain ":").

Definition categorize_domain (domain : string) : option category :=
  if String.eqb domain "" || negb (PyStr.contains "." domain) then None
  else
    let clean_domain := clean_domain_of domain in
    if Re.re_match wildcard_tld_pattern clean_domain then Some wildcard_tld
    else
      let leading :=
        if PyStr.startswith clean_domain "*." then
          let parts := PyStr.split clean_domain "." in
          if (3 <=? length parts)%nat && negb (PyStr.contains "*" (PyStr.last parts))
          then Some simple_wildcard
          else None
        else None in
      match leading with
      | Some c => Some c
      | None =>
          if negb (PyStr.contains "*" clean_domain) then Some standard else None
      end.

(** ** Decoded JSON and the Python operations applied to it

    What [response.json()] and [json.load] hand to the script.  Numbers
    are integers; an object keeps its entries in order, and a key is
    looked up at its first entry. *)
Module Py.

Inductive json : Type :=
| JNull
| JBool (b : bool)
| JNum (n : Z)
| JStr (s : string)
| JArr (items : list json)
| JObj (fields : list (string * json)).

Inductive exn : Type :=
| AttributeError
| KeyError
| TypeError
| ValueError
| OSError
| JSONDecodeError
| OverflowError
| KeyboardInterrupt.

(** The value of a Python expression: a value or a raised exception. *)
Inductive res (A : Type) : Type :=
| Val (a : A)
| Exc (e : exn).
Arguments Val {A} a.
Arguments Exc {A} e.

(** Truth value of [x] in [if x] and [not x]. *)
Definition truthy (x : json) : bool :=
  match x with
  | JNull => false
  | JBool b => b
  | JNum n => negb (n =? 0)
  | JStr s => negb (String.eqb s "")
  | JArr items => match items with [] => false | _ => true end
  | JObj fields => match fields with [] => false | _ => true end
  end.

Fixpoint lookup (fields : list (string * json)) (key : string) : option json :=
  match fields with
  | [] => None
  | (k, v) :: rest => if String.eqb k key then Some v else lookup rest key
  end.

(** [x.get(key, default)]: only a dict has [get]. *)
Definition get (x : json) (key : string) (default : json) : res json :=
  match x with
  | JObj fields =>
      match lookup fields key with
      | Some v => Val v
      | None => Val default
      end
  | _ => Exc AttributeError
  end.

(** [x[key]] with a string key. *)
Definition getitem (x : json) (key : string) : res json :=
  match x with
  | JObj fields =>
      match lookup fields key with
      | Some v => Val v
      | None => Exc KeyError
      end
  | _ => Exc TypeError
  end.

(** [x == s] for a string literal [s]. *)
Definition eq_str (x : json) (s : string) : bool :=
  match x with
  | JStr t => String.eqb t s
  | _ => false
  end.

(** [key in x] with a string key: key of a dict, element of a list,
    substring of a string; other values are not containers. *)
Definition contains (key : string) (x : json) : res bool :=
  match x with
  | JObj fields => Val (match lookup fields key with Some _ => true | None => false end)
  | JArr items => Val (existsb (fun item => eq_str item key) items)
  | JStr s => Val (PyStr.contains key s)
  | _ => Exc TypeError
  end.

Fixpoint chars (s : string) : list json :=
  match s with
  | EmptyString => []
  | String c s' => JStr (String c EmptyString) :: chars s'
  end.

(** The items [for item in x] and [list.extend(x)] run through. *)
Definition iter (x : json) : res (list json) :=
  match x with
  | JArr items => Val items
  | JStr s => Val (chars s)
  | JObj fields => Val (map (fun kv => JStr (fst kv)) fields)
  | _ => Exc TypeError
  end.

(** [x.split(sep)]: only a string has [split]. *)
Definition split (x : json) (sep : string) : res (list string) :=
  match x with
  | JStr s => Val (PyStr.split s sep)
  | _ => Exc AttributeError
  end.

End Py.
Export Py.

(** ** The world the script runs in *)

(** What is stored under a path: text that decodes to a JSON value,
    text that does not, or a file that cannot be opened for reading. *)
Inductive file_content : Type :=
| Json (j : json)
| Garbage
| Unreadable.

Record file : Type := { mtime : Z; content : file_content }.

(** The two endpoints, with the query parameters the script sends. *)
Inductive request : Type :=
| ListPrograms (page_number page_size : Z)
| ListScopes (handle : json) (page_size : Z).

(** The [Retry-After] header as [int(response.headers.get(...))] sees
    it: absent, a text [int] turns into a number, or a text it rejects. *)
Inductive retry_after_header : Type :=
| NoRetryAfter
| RetryAfter (seconds : Z)
| RetryAfterNotInt.

(** What one call of [requests.get] comes back with.  A [body] of
    [None] is a body [response.json()] cannot decode. *)
Inductive reply : Type :=
| Response (status_code : Z) (retry_after : retry_after_header) (body : option json)
| NetworkFailure
| Interrupt.

Inductive event : Type :=
| Acquire
| Release
| Get (r : request)
| Sleep (usec : Z).

(** [now] is the local clock, [permits] the free slots of
    [request_semaphore], [files] the files that exist, [unwritable] the
    paths [open(path, 'w')] fails on (a directory, a file or a
    directory without write permission), [log] what happened so far,
    newest first. *)
Record world : Type := {
  now : Z;
  permits : Z;
  files : gmap string file;
  unwritable : gset string;
  log : list event
}.

Definition is_get (e : event) : bool :=
  match e with Get _ => true | _ => false end.

Definition requests_sent (w : world) : nat :=
  length (List.filter is_get (log w)).

Definition record (e : event) (w : world) : world :=
  {| now := now w; permits := permits w; files := files w;
     unwritable := unwritable w; log := e :: log w |}.

(** [time.sleep] of a duration it accepts. *)
Definition sleep (usec : Z) (w : world) : world :=
  {| now := now w + usec; permits := permits w; files := files w;
     unwritable := unwritable w; log := Sleep usec :: log w |}.

(** The most whole seconds [time.sleep] accepts: it counts the
    duration in nanoseconds in a signed 64-bit integer and raises
    [OverflowError] beyond. *)
Definition MAX_SLEEP_SECONDS : Z := (2 ^ 63 - 1) / 1000000000.

(** [datetime.fromtimestamp], on the local time of a file, in
    microseconds.  A [datetime] holds the years 1 to 9999, and the
    conversion also looks one day back, so the first day of year 1 is
    out of range as well: [ValueError].  Further out the C library's
    [localtime] gives up ([OSError]; the bounds are those of 64-bit
    glibc), and beyond the 64-bit [time_t] the conversion raises
    [OverflowError]. *)
Definition datetime_min : Z := -62135596800 * usec_per_second.
Definition datetime_max : Z := 253402300800 * usec_per_second - 1.
Definition localtime_min : Z := -67768040609740800 * usec_per_second.
Definition localtime_max : Z := 67768036191676800 * usec_per_second - 1.
Definition time_t_bound : Z := 2 ^ 63 * usec_per_second.

Definition representable (t : Z) : bool :=
  (datetime_min + usec_per_day <=? t) && (t <=? datetime_max).

Definition fromtimestamp (t : Z) : res Z :=
  if representable t then Val t
  else if (localtime_min <=? t) && (t <=? localtime_max) then Exc ValueError
  else if (- time_t_bound <=? t) && (t <? time_t_bound) then Exc OSError
  else Exc OverflowError.

(** ** Computations: state passing with exceptions *)

Inductive outcome (A : Type) : Type :=
| Ret (a : A)
| Raise (e : exn)
| Blocked
| OutOfFuel.
Arguments Ret {A} a.
Arguments Raise {A} e.
Arguments Blocked {A}.
Arguments OutOfFuel {A}.

Definition M (A : Type) : Type := world -> outcome A * world.

Definition ret {A} (a : A) : M A := fun w => (Ret a, w).

Definition bind {A B} (m : M A) (k : A -> M B) : M B :=
  fun w =>
    match m w with
    | (Ret a, w') => k a w'
    | (Raise e, w') => (Raise e, w')
    | (Blocked, w') => (Blocked, w')
    | (OutOfFuel, w') => (OutOfFuel, w')
    end.

Definition lift {A} (r : res A) : M A :=
  fun w => match r with Val a => (Ret a, w) | Exc e => (Raise e, w) end.

Definition act (f : world -> world) : M unit := fun w => (Ret tt, f w).

Notation "'let*' x ':=' m 'in' k" := (bind m (fun x => k))
  (at level 10, x name, m at level 100, k at level 200).
Notation "m '>>' k" := (bind m (fun _ => k))
  (at level 100, k at level 200, right associativity).

(** The same sequencing for expressions that only compute. *)
Definition and_then {A B} (r : res A) (k : A -> res B) : res B :=
  match r with
  | Val a => k a
  | Exc e => Exc e
  end.

Notation "'try' x ':=' r 'in' k" := (and_then r (fun x => k))
  (at level 10, x name, r at level 100, k at level 200).

(** How the body of one loop round ends: it falls through or
    [continue]s to the next round, [return]s, or lets an exception out. *)
Inductive flow (A : Type) : Type :=
| Next
| Return (a : A)
| Throw (e : exn).
Arguments Next {A}.
Arguments Return {A} a.
Arguments Throw {A} e.

(** ** Result sets *)

Record domain_sets : Type := {
  standard_set : gset string;
  simple_wildcard_set : gset string;
  wildcard_tld_set : gset string
}.

(** [{'standard': set(), 'simple_wildcard': set(), 'wildcard_tld': set()}] *)
Definition empty_sets : domain_sets :=
  {| standard_set := ∅; simple_wildcard_set := ∅; wildcard_tld_set := ∅ |}.

(** [domains[category].add(domain)] *)
Definition add_domain (c : category) (domain : string) (d : domain_sets)
  : domain_sets :=
  match c with
  | standard =>
      {| standard_set := {[domain]} ∪ standard_set d;
         simple_wildcard_set := simple_wildcard_set d;
         wildcard_tld_set := wildcard_tld_set d |}
  | simple_wildcard =>
      {| standard_set := standard_set d;
         simple_wildcard_set := {[domain]} ∪ simple_wildcard_set d;
         wildcard_tld_set := wildcard_tld_set d |}
  | wildcard_tld =>
      {| standard_set := standard_set d;
         simple_wildcard_set := simple_wildcard_set d;
         wildcard_tld_set := {[domain]} ∪ wildcard_tld_set d |}
  end.

(** ** Cache freshness (lines 28-34) *)

Definition PROGRAMS_CACHE_FILE : string := "hackerone_programs_cache.json".

Definition is_cache_valid (cache_file : string) (w : world) : res bool :=
  match files w !! cache_file with
  | None => Val false
  | Some f =>
      match fromtimestamp (mtime f) with
      | Val cache_time =>
          Val (now w - cache_time <? CACHE_EXPIRY_DAYS * usec_per_day)
      | Exc e => Exc e
      end
  end.

(** [with open(path, 'r') as f: return json.load(f)] *)
Definition load_json (path : string) : M json :=
  fun w =>
    match files w !! path with
    | None => (Raise OSError, w)
    | Some f =>
        match content f with
        | Json j => (Ret j, w)
        | Garbage => (Raise JSONDecodeError, w)
        | Unreadable => (Raise OSError, w)
        end
    end.

(** [json.dump(value, f)] into a file opened for writing, followed by
    [os.utime(path, None)]. *)
Definition dump_json (path : string) (value : json) (w : world) : world :=
  {| now := now w; permits := permits w;
     files := <[path := {| mtime := now w; content := Json value |}]> (files w);
     unwritable := unwritable w;
     log := log w |}.

(** [with open(path, 'w') as f: json.dump(value, f)] and the
    [os.utime] after it (lines 94-98): [open] raises [OSError] on a path
    that cannot be opened for writing, and nothing is written then. *)
Definition write_json (path : string) (value : json) : M unit :=
  fun w =>
    if decide (path ∈ unwritable w) then (Raise OSError, w)
    else (Ret tt, dump_json path value w).

(** ** The script's functions, against an HTTP peer

    [peer n r] is what [requests.get] comes back with when request [r]
    is the one sent after [n] earlier ones. *)
Section Script.

Variable peer : nat -> request -> reply.

(** *** Rate-limited client (lines 36-64) *)

Definition acquire (w : world) : world :=
  {| now := now w; permits := permits w - 1; files := files w;
     unwritable := unwritable w; log := Acquire :: log w |}.

Definition release (w : world) : world :=
  {| now := now w; permits := permits w + 1; files := files w;
     unwritable := unwritable w; log := Release :: log w |}.

(** [with request_semaphore: body]: the slot is taken before the body
    and given back when the body is left, by [return] or by exception.
    With no free slot the caller waits. *)
Definition with_semaphore {A} (body : M A) : M A :=
  fun w =>
    if 0 <? permits w then
      match body (acquire w) with
      | (Ret a, w') => (Ret a, release w')
      | (Raise e, w') => (Raise e, release w')
      | (Blocked, w') => (Blocked, w')
      | (OutOfFuel, w') => (OutOfFuel, w')
      end
    else (Blocked, w).

(** The handler of [except Exception] (lines 60-62). *)
Definition on_exception (attempt : nat) (w : world) : world :=
  sleep (RATE_LIMIT_DELAY * (Z.of_nat attempt + 1)) w.

(** One round of the [for attempt] loop (lines 40-62). *)
Definition attempt_body (req : request) (attempt : nat) (w : world)
  : flow json * world :=
  let w1 := record (Get req) w in
  match peer (requests_sent w) req with
  | Interrupt => (Throw KeyboardInterrupt, w1)
  | NetworkFailure => (Next, on_exception attempt w1)
  | Response status_code retry_after body =>
      if status_code =? 200 then
        match body with
        | Some j => (Return j, w1)
        | None => (Next, on_exception attempt w1)
        end
      else if status_code =? 429 then
        match retry_after with
        | NoRetryAfter => (Next, sleep (10 * usec_per_second) w1)
        | RetryAfter seconds =>
            if seconds <? 0 then (Next, on_exception attempt w1)
            else if MAX_SLEEP_SECONDS <? seconds
                 then (Next, on_exception attempt w1)
            else (Next, sleep (seconds * usec_per_second) w1)
        | RetryAfterNotInt => (Next, on_exception attempt w1)
        end
      else if 400 <=? status_code then (Return JNull, w1)
      else (Next, w1)
  end.

(** [for attempt in range: ...] followed by [return None]. *)
Fixpoint for_attempts (req : request) (range : list nat) : M json :=
  match range with
  | [] => ret JNull
  | attempt :: rest =>
      fun w =>
        match attempt_body req attempt w with
        | (Next, w') => for_attempts req rest w'
        | (Return j, w') => (Ret j, w')
        | (Throw e, w') => (Raise e, w')
        end
  end.

Definition make_api_request (req : request) : M json :=
  with_semaphore (for_attempts req (seq 0 MAX_RETRIES)).

(** *** Program paginator (lines 66-99) *)

(** The [while True] loop of lines 78-92; [fuel] bounds the number of
    rounds. *)
Fixpoint fetch_pages (fuel : nat) (page : Z) (programs : list json)
  : M (list json) :=
  match fuel with
  | O => fun w => (OutOfFuel, w)
  | S fuel' =>
      let* data := make_api_request (ListPrograms page PAGE_SIZE) in
      if negb (truthy data) then ret programs else
      let* d := lift (get data "data" JNull) in
      if negb (truthy d) then ret programs else
      let* page_data := lift (getitem data "data") in
      let* items := lift (iter page_data) in
      let programs' := (programs ++ items)%list in
      let* has_links := lift (contains "links" data) in
      let* has_next :=
        (if has_links : bool then
           let* links := lift (getitem data "links") in
           lift (contains "next" links)
         else ret false) in
      if has_next : bool then
        act (sleep RATE_LIMIT_DELAY) >> fetch_pages fuel' (page + 1) programs'
      else ret programs'
  end.

(** Lines 73-99: the path taken without a valid cache. *)
Definition refetch (fuel : nat) : M json :=
  let* programs := fetch_pages fuel 1 [] in
  write_json PROGRAMS_CACHE_FILE (JArr programs) >> ret (JArr programs).

Definition fetch_all_programs (fuel : nat) : M json :=
  fun w =>
    match is_cache_valid PROGRAMS_CACHE_FILE w with
    | Val true => load_json PROGRAMS_CACHE_FILE w
    | Val false => refetch fuel w
    | Exc e => (Raise e, w)
    end.

(** *** Scope extractor (lines 121-140) *)

(** [url.split('//')[-1].split('/')[0].lower().strip()] *)
Definition domain_of_url (url : json) : res string :=
  try pieces := split url "//" in
  Val (PyStr.strip (PyStr.lower (PyStr.first (PyStr.split (PyStr.last pieces) "/")))).

(** The body of [for scope in data['data']] (lines 132-138). *)
Definition scan_scope (scope : json) (domains : domain_sets) : res domain_sets :=
  try attributes := get scope "attributes" (JObj []) in
  try asset_type := get attributes "asset_type" JNull in
  if eq_str asset_type "URL" then
    try attributes' := getitem scope "attributes" in
    try url := getitem attributes' "asset_identifier" in
    try domain := domain_of_url url in
    if negb (String.eqb domain "") then
      match categorize_domain domain with
      | Some c => Val (add_domain c domain domains)
      | None => Val domains
      end
    else Val domains
  else Val domains.

Fixpoint scan_scopes (scopes : list json) (domains : domain_sets)
  : res domain_sets :=
  match scopes with
  | [] => Val domains
  | scope :: rest =>
      try domains' := scan_scope scope domains in
      scan_scopes rest domains'
  end.

(** [program.get('attributes', {}).get('handle')] *)
Definition handle_of (program : json) : res json :=
  try attributes := get program "attributes" (JObj []) in
  get attributes "handle" JNull.

(** Lines 126 and 130-140: the sets filled from the decoded body. *)
Definition collect_domains (data : json) : M domain_sets :=
  if truthy data then
    let* d := lift (get data "data" JNull) in
    if truthy d then
      let* scope_data := lift (getitem data "data") in
      let* scopes := lift (iter scope_data) in
      lift (scan_scopes scopes empty_sets)
    else ret empty_sets
  else ret empty_sets.

Definition extract_domains_from_program (program : json) : M domain_sets :=
  let* handle := lift (handle_of program) in
  if negb (truthy handle) then ret empty_sets else
  let* data := make_api_request (ListScopes handle PAGE_SIZE) in
  collect_domains data.

End Script.

(** *** Aggregation in [main] (lines 149-162) *)

(** [for category in domains: all_domains[category].update(domains[category])] *)
Definition merge (all_domains domains : domain_sets) : domain_sets :=
  {| standard_set := standard_set all_domains ∪ standard_set domains;
     simple_wildcard_set := simple_wildcard_set all_domains ∪ simple_wildcard_set domains;
     wildcard_tld_set := wildcard_tld_set all_domains ∪ wildcard_tld_set domains |}.

(** The loop over [as_completed(futures)]: the results are merged in
    the order the tasks complete. *)
Definition aggregate (completed : list domain_sets) : domain_sets :=
  fold_left merge completed empty_sets.

(** ** Vocabulary of the statements *)

(** Every character of [s] satisfies [p]. *)
Fixpoint all_chars (p : ascii -> bool) (s : string) : bool :=
  match s with
  | EmptyString => true
  | String c s' => p c && all_chars p s'
  end.

(** The text of [s] before the first occurrence of character [c]. *)
Fixpoint before (c : ascii) (s : string) : string :=
  match s with
  | EmptyString => EmptyString
  | String a s' => if Ascii.eqb c a then EmptyString else String a (before c s')
  end.

(** The one-character string holding a line feed. *)
Definition line_feed : string := String Re.newline "".

(** The world with [f] stored under [path]. *)
Definition put_file (path : string) (f : file) (w : world) : world :=
  {| now := now w; permits := permits w; files := <[path := f]> (files w);
     unwritable := unwritable w; log := log w |}.


(** Events of the semaphore. *)
Definition is_slot_event (e : event) : bool :=
  match e with
  | Acquire | Release => true
  | _ => false
  end.

(** A computation came to an end, by [return] or by exception. *)
Definition finished {A} (r : outcome A) : bool :=
  match r with
  | Ret _ | Raise _ => true
  | Blocked | OutOfFuel => false
  end.

(** The semaphore events of a log, oldest last. *)
Definition slot_events (w : world) : list event :=
  List.filter is_slot_event (log w).

(** Sample per-program results. *)
Definition sets_a : domain_sets :=
  add_domain standard "a.example.com" empty_sets.
Definition sets_b : domain_sets :=
  add_domain simple_wildcard "*.b.example.com"
    (add_domain standard "a.example.com" empty_sets).

(** The world at the start of a run at local time [t] with the files
    [fs] on disk: the semaphore is full and nothing has happened. *)
Definition fresh_world (t : Z) (fs : gmap string file) : world :=
  {| now := t; permits := semaphore_capacity; files := fs; unwritable := ∅;
     log := [] |}.



(** ... a single 429 with [Retry-After: 3], then success ... *)
Definition peer_429_once (n : nat) (_ : request) : reply :=
  match n with
  | 0%nat => Response 429 (RetryAfter 3) None
  | _ => Response 200 NoRetryAfter (Some (JStr "ok"))
  end.

(** ... and a failure followed by an interrupt that [except Exception]
    does not catch. *)
Definition peer_interrupted (n : nat) (_ : request) : reply :=
  match n with
  | 0%nat => NetworkFailure
  | _ => Interrupt
  end.

(** The scope entry of the specification's example, as the scopes
    endpoint delivers it. *)
Definition foo_url : string := "https://Foo.EXAMPLE.com:443/path".
Definition foo_entry : json :=
  JObj [("attributes",
         JObj [("asset_type", JStr "URL"); ("asset_identifier", JStr foo_url)])].

Definition program_with_handle (handle : json) : json :=
  JObj [("attributes", JObj [("handle", handle)])].

(** Shapes the extractor gets through without an exception: a program
    that is an object whose [attributes], if any, is an object ... *)
Definition program_shape_ok (program : json) : bool :=
  match program with
  | JObj fields =>
      match lookup fields "attributes" with
      | None | Some (JObj _) => true
      | Some _ => false
      end
  | _ => false
  end.

(** ... scope entries that are objects whose [attributes], if any, is
    an object which, when its [asset_type] is [URL], holds a string
    under [asset_identifier] ... *)
Definition scope_entry_ok (scope : json) : bool :=
  match scope with
  | JObj fields =>
      match lookup fields "attributes" with
      | None => true
      | Some (JObj attributes) =>
          let asset_type :=
            match lookup attributes "asset_type" with
            | Some v => v
            | None => JNull
            end in
          if eq_str asset_type "URL" then
            match lookup attributes "asset_identifier" with
            | Some (JStr _) => true
            | _ => false
            end
          else true
      | Some _ => false
      end
  | _ => false
  end.

(** ... and a decoded body that is falsy, or an object whose [data],
    if any, is falsy or a list of such entries. *)
Definition scope_data_ok (data : json) : bool :=
  match data with
  | JObj fields =>
      match lookup fields "data" with
      | None => true
      | Some (JArr items) => forallb scope_entry_ok items
      | Some d => negb (truthy d)
      end
  | _ => negb (truthy data)
  end.

(** A decoded body with nothing to scan: falsy, or an object without
    truthy [data]. *)
Definition no_scope_data (data : json) : bool :=
  negb (truthy data)
  || match data with
     | JObj fields =>
         match lookup fields "data" with
         | None => true
         | Some d => negb (truthy d)
         end
     | _ => false
     end.

(** A scope entry the extractor passes over: an object without
    [attributes], or one whose [attributes] is an object whose
    [asset_type] is missing or is not the string [URL]. *)
Definition passed_over (scope : json) : bool :=
  match scope with
  | JObj fields =>
      match lookup fields "attributes" with
      | None => true
      | Some (JObj attributes) =>
          match lookup attributes "asset_type" with
          | Some asset_type => negb (eq_str asset_type "URL")
          | None => true
          end
      | Some _ => false
      end
  | _ => false
  end.

(** Peers for the extractor: one entry whose identifier is a number,
    one URL entry without identifier, and the example entry. *)
Definition peer_numeric_identifier (_ : nat) (_ : request) : reply :=
  Response 200 NoRetryAfter
    (Some (JObj [("data",
                  JArr [JObj [("attributes",
                               JObj [("asset_type", JStr "URL");
                                     ("asset_identifier", JNum 5)])]])])).

Definition peer_missing_identifier (_ : nat) (_ : request) : reply :=
  Response 200 NoRetryAfter
    (Some (JObj [("data",
                  JArr [JObj [("attributes",
                               JObj [("asset_type", JStr "URL")])]])])).

Definition peer_foo (_ : nat) (_ : request) : reply :=
  Response 200 NoRetryAfter (Some (JObj [("data", JArr [foo_entry])])).

(** Where the value of a call of the client comes from: [None], or
    the decoded body of a 200 response; an exception only from an
    interrupt. *)
Definition explained (peer : nat -> request -> reply) (req : request)
    (r : outcome json) : Prop :=
  match r with
  | Ret j => j = JNull \/ exists n h, peer n req = Response 200 h (Some j)
  | Raise e => exists n, peer n req = Interrupt
  | Blocked | OutOfFuel => False
  end.

(** A listing served in pages: 100 programs with a next link, 37
    programs without one, and more programs for whoever asks further. *)
Definition program_item (i : nat) : json :=
  JObj [("id", JNum (Z.of_nat i)); ("type", JStr "program")].

Definition programs_from (start count : nat) : list json :=
  map program_item (seq start count).

Definition page_one : json :=
  JObj [("data", JArr (programs_from 0 100));
        ("links", JObj [("self", JStr "page-1"); ("next", JStr "page-2")])].

Definition page_two : json :=
  JObj [("data", JArr (programs_from 100 37));
        ("links", JObj [("self", JStr "page-2")])].

Definition page_beyond : json :=
  JObj [("data", JArr (programs_from 137 5));
        ("links", JObj [("self", JStr "page-3")])].

Definition peer_two_pages (_ : nat) (req : request) : reply :=
  match req with
  | ListPrograms page _ =>
      if page =? 1 then Response 200 NoRetryAfter (Some page_one)
      else if page =? 2 then Response 200 NoRetryAfter (Some page_two)
      else Response 200 NoRetryAfter (Some page_beyond)
  | ListScopes _ _ => Response 404 NoRetryAfter None
  end.

(** A first page whose [links] is a list holding the string [next],
    served before the 37 programs of [page_two]; and a page whose
    [links] is [null]. *)
Definition page_links_list : json :=
  JObj [("data", JArr (programs_from 0 100)); ("links", JArr [JStr "next"])].

Definition page_links_null : json :=
  JObj [("data", JArr (programs_from 0 100)); ("links", JNull)].

Definition peer_links_list (_ : nat) (req : request) : reply :=
  match req with
  | ListPrograms page _ =>
      if page =? 1 then Response 200 NoRetryAfter (Some page_links_list)
      else if page =? 2 then Response 200 NoRetryAfter (Some page_two)
      else Response 200 NoRetryAfter (Some page_beyond)
  | ListScopes _ _ => Response 404 NoRetryAfter None
  end.

Definition peer_links_null (_ : nat) (_ : request) : reply :=
  Response 200 NoRetryAfter (Some page_links_null).

(** A peer whose bodies are JSON lists. *)
Definition peer_list_body (_ : nat) (_ : request) : reply :=
  Response 200 NoRetryAfter (Some (JArr [JStr "x"])).

(** A peer that cannot be reached. *)
Definition peer_down (_ : nat) (_ : request) : reply := NetworkFailure.

(** A cache file that does not decode. *)
Definition garbage_cache : gmap string file :=
  {[ PROGRAMS_CACHE_FILE := {| mtime := 0; content := Garbage |} ]}.

(** The requests of a log, newest first. *)
Definition requests_of (w : world) : list event :=
  List.filter is_get (log w).

(** What a round of the retry loop leaves untouched, and what it adds. *)
Record round_frame (w w' : world) : Prop := {
  frame_permits : permits w' = permits w;
  frame_files : files w' = files w;
  frame_slots : slot_events w' = slot_events w;
  frame_sent : requests_sent w' = S (requests_sent w)
}.

(** What the whole retry loop leaves untouched. *)
Record loop_frame (budget : nat) (w w' : world) : Prop := {
  loop_permits : permits w' = permits w;
  loop_files : files w' = files w;
  loop_slots : slot_events w' = slot_events w;
  loop_sent : (requests_sent w <= requests_sent w' <= requests_sent w + budget)%nat
}.

(** The pieces of [s] between the occurrences of character [c]. *)
Fixpoint pieces (c : ascii) (s : string) : list string :=
  match s with
  | EmptyString => [EmptyString]
  | String a s' =>
      if Ascii.eqb c a then EmptyString :: pieces c s'
      else
        match pieces c s' with
        | p :: ps => String a p :: ps
        | [] => [String a EmptyString]
        end
  end.

(** [sep.join(l)] *)
Fixpoint join (sep : string) (l : list string) : string :=
  match l with
  | [] => EmptyString
  | [x] => x
  | x :: rest => x +:+ sep +:+ join sep rest
  end.

(** [sorted(names)]: ascending by code points. *)
Definition sorted (names : gset string) : list string :=
  merge_sort String.le (elements names).

(** ['\n'.join(sorted(all_domains[category]))], the text written to an
    output file (line 179). *)
Definition render (names : gset string) : string :=
  join line_feed (sorted names).




(** The world after [count] listing pages, from page [first] on, were
    each fetched with one request and followed by the inter-page
    delay. *)
Fixpoint after_pages (first : Z) (count : nat) (w : world) : world :=
  match count with
  | O => w
  | S n =>
      after_pages (first + 1) n
        (sleep RATE_LIMIT_DELAY
           (release (record (Get (ListPrograms first PAGE_SIZE)) (acquire w))))
  end.

(** [domains[category]] *)
Definition set_of (c : category) (sets : domain_sets) : gset string :=
  match c with
  | standard => standard_set sets
  | simple_wildcard => simple_wildcard_set sets
  | wildcard_tld => wildcard_tld_set sets
  end.

(** Every stored name sits in the set of the category the classifier
    gives it, holds no [/], is in lower case and is trimmed. *)
Definition well_formed (sets : domain_sets) : Prop :=
  forall c d,
    d ∈ set_of c sets ->
    categorize_domain d = Some c
    /\ PyStr.contains "/" d = false
    /\ PyStr.lower d = d
    /\ PyStr.strip d = d.

(** * Properties *)

(** ** Strings *)
Module PyStrFacts.
Import PyStr.

Lemma app_nil_l (s : string) : "" +:+ s = s.
Proof. reflexivity. Qed.

Lemma app_cons (c : ascii) (s t : string) :
  String c s +:+ t = String c (s +:+ t).
Proof. reflexivity. Qed.

Lemma app_nil_r (s : string) : s +:+ "" = s.
Proof.
  induction s as [|c s IH]; [reflexivity|]. now rewrite app_cons, IH.
Qed.

Lemma app_assoc (s t u : string) : (s +:+ t) +:+ u = s +:+ (t +:+ u).
Proof.
  induction s as [|c s IH]; [reflexivity|]. now rewrite !app_cons, IH.
Qed.

Lemma app_eq_nil (s t : string) : s +:+ t = "" -> s = "" /\ t = "".
Proof. destruct s; [auto | discriminate]. Qed.

Lemma rev_acc_app (acc s : string) : rev_acc acc s = rev_acc "" s +:+ acc.
Proof.
  revert acc. induction s as [|c s IH]; intros acc; cbn [rev_acc].
  - reflexivity.
  - rewrite IH, (IH (String c "")), app_assoc. reflexivity.
Qed.

Lemma prefix_char (c a : ascii) (s : string) :
  String.prefix (String c "") (String a s) = Ascii.eqb c a.
Proof.
  simpl. destruct (ascii_dec c a) as [->|Hne].
  - rewrite Ascii.eqb_refl. now destruct s.
  - apply Ascii.eqb_neq in Hne. now rewrite Hne.
Qed.

Lemma prefix_app (p s : string) : String.prefix p (p +:+ s) = true.
Proof.
  induction p as [|c p IH].
  - now destruct s.
  - rewrite app_cons. cbn [String.prefix].
    destruct (ascii_dec c c); [exact IH | congruence].
Qed.

(** Membership of one character, as a test on all characters. *)
Lemma contains_char (c : ascii) (s : string) :
  contains (String c "") s = negb (all_chars (fun x => negb (Ascii.eqb c x)) s).
Proof.
  induction s as [|a s IH].
  - reflexivity.
  - cbn [contains all_chars]. rewrite prefix_char, IH.
    destruct (Ascii.eqb c a); reflexivity.
Qed.

Lemma contains_char_app (c : ascii) (s t : string) :
  contains (String c "") (s +:+ t)
  = contains (String c "") s || contains (String c "") t.
Proof.
  induction s as [|a s IH].
  - reflexivity.
  - rewrite app_cons. cbn [contains]. rewrite !prefix_char, IH.
    destruct (Ascii.eqb c a); reflexivity.
Qed.

(** Splitting at a one-character separator: the first piece. *)
Lemma split_from_first (c : ascii) (acc s : string) :
  first (split_from (String c "") 0 acc s) = rev_acc "" acc +:+ before c s.
Proof.
  revert acc. induction s as [|a s IH]; intros acc.
  - cbn [split_from before first hd]. now rewrite app_nil_r.
  - cbn [split_from]. rewrite prefix_char. cbn [before].
    destruct (Ascii.eqb c a).
    + cbn [first hd]. now rewrite app_nil_r.
    + rewrite IH. cbn [rev_acc].
      rewrite (rev_acc_app (String a "")), app_assoc. reflexivity.
Qed.

Lemma split_first (c : ascii) (s : string) :
  first (split s (String c "")) = before c s.
Proof. unfold split. now rewrite split_from_first. Qed.

(** A string is what comes before [c], alone or followed by [c] and more. *)
Lemma before_cases (c : ascii) (s : string) :
  s = before c s \/ exists rest, s = before c s +:+ String c rest.
Proof.
  induction s as [|a s IH]; cbn [before].
  - now left.
  - destruct (Ascii.eqb c a) eqn:E.
    + right. apply Ascii.eqb_eq in E. subst a. now exists s.
    + destruct IH as [IH | [rest IH]].
      * left. now rewrite <- IH.
      * right. exists rest. rewrite app_cons. now rewrite <- IH.
Qed.

Lemma before_no_sep (c : ascii) (s : string) :
  contains (String c "") s = false -> before c s = s.
Proof.
  rewrite contains_char. induction s as [|a s IH]; simpl; [reflexivity|].
  destruct (Ascii.eqb c a); simpl; [discriminate|].
  intros H. now rewrite IH.
Qed.

End PyStrFacts.

(** ** Regular expressions: the matcher decides the language *)
Module ReFacts.
Import Re PyStrFacts.

Lemma nullable_matches (r : regex) : nullable r = true -> matches r "".
Proof.
  induction r; cbn [nullable]; intros H; try discriminate.
  - constructor.
  - apply andb_true_iff in H as [H1 H2].
    change "" with ("" +:+ ""). constructor; auto.
  - apply orb_true_iff in H as [H|H]; [apply M_alt_l | apply M_alt_r]; auto.
  - constructor.
Qed.

Lemma matches_nullable (r : regex) (s : string) :
  matches r s -> s = "" -> nullable r = true.
Proof.
  induction 1; intros E; cbn [nullable]; try reflexivity; try discriminate.
  - apply app_eq_nil in E as [-> ->]. now rewrite IHmatches1, IHmatches2.
  - now rewrite IHmatches.
  - rewrite IHmatches by assumption. apply orb_true_r.
Qed.

Lemma deriv_sound (c : ascii) (r : regex) (s : string) :
  matches (deriv c r) s -> matches r (String c s).
Proof.
  revert s. induction r; intros s H; cbn [deriv] in H.
  - inversion H.
  - inversion H.
  - destruct (p c) eqn:E; inversion H; subst. now constructor.
  - assert (Hcat : forall t, matches (Cat (deriv c r1) r2) t ->
                             matches (Cat r1 r2) (String c t)).
    { intros t Ht. inversion Ht; subst. rewrite <- app_cons.
      constructor; auto. }
    destruct (nullable r1) eqn:E.
    + inversion H; subst; [now apply Hcat|].
      rewrite <- (app_nil_l (String c s)).
      constructor; [now apply nullable_matches | auto].
    + now apply Hcat.
  - inversion H; subst; [apply M_alt_l | apply M_alt_r]; auto.
  - inversion H; subst. rewrite <- app_cons. constructor; auto.
Qed.

Lemma deriv_complete (c : ascii) (r : regex) (t : string) :
  matches r t -> forall u, t = String c u -> matches (deriv c r) u.
Proof.
  induction 1; intros u E; cbn [deriv]; try discriminate.
  - injection E as -> <-. rewrite H. constructor.
  - destruct s1 as [|a s1].
    + rewrite app_nil_l in E.
      rewrite (matches_nullable r1 "") by auto.
      apply M_alt_r. auto.
    + rewrite app_cons in E. injection E as -> <-.
      assert (matches (Cat (deriv c r1) r2) (s1 +:+ s2))
        by (constructor; auto).
      destruct (nullable r1); [now apply M_alt_l | assumption].
  - apply M_alt_l. auto.
  - apply M_alt_r. auto.
  - destruct s1 as [|a s1].
    + rewrite app_nil_l in E. exact (IHmatches2 u E).
    + rewrite app_cons in E. injection E as -> <-.
      constructor; auto.
Qed.

(** [re_match] holds exactly when some prefix is in the language. *)
Lemma re_match_spec (r : regex) (s : string) :
  re_match r s = true <-> exists p q, s = p +:+ q /\ matches r p.
Proof.
  revert r. induction s as [|c s IH]; intros r; cbn [re_match].
  - rewrite orb_false_r. split.
    + intros H. exists "", "". split; [reflexivity | now apply nullable_matches].
    + intros (p & q & E & H). symmetry in E. apply app_eq_nil in E as [-> _].
      now apply (matches_nullable r "").
  - rewrite orb_true_iff, IH. split.
    + intros [H | (p & q & -> & H)].
      * exists "", (String c s). split; [reflexivity | now apply nullable_matches].
      * exists (String c p), q. split; [reflexivity | now apply deriv_sound].
    + intros (p & q & E & H). destruct p as [|a p].
      * left. now apply (matches_nullable r "").
      * right. rewrite app_cons in E. injection E as <- ->.
        exists p, q. split; [reflexivity | now apply (deriv_complete c r (String c p))].
Qed.

Lemma matches_sym_star (p : ascii -> bool) (s : string) :
  all_chars p s = true -> matches (Star (Sym p)) s.
Proof.
  induction s as [|c s IH]; cbn [all_chars]; intros H.
  - constructor.
  - apply andb_true_iff in H as [Hc Hs].
    change (String c s) with (String c "" +:+ s).
    constructor; [now constructor | auto].
Qed.

Lemma sym_star_chars (r : regex) (s : string) :
  matches r s -> forall p, r = Star (Sym p) -> all_chars p s = true.
Proof.
  induction 1; intros q E; try discriminate.
  - reflexivity.
  - injection E as ->. inversion H as [|? c Hc| | | | |]; subst.
    rewrite app_cons, app_nil_l. cbn [all_chars].
    rewrite Hc. now apply IHmatches2.
Qed.

Lemma matches_cat_inv (r1 r2 : regex) (s : string) :
  matches (Cat r1 r2) s ->
  exists s1 s2, s = s1 +:+ s2 /\ matches r1 s1 /\ matches r2 s2.
Proof. intros H. inversion H; subst. eauto. Qed.

Lemma matches_sym_inv (p : ascii -> bool) (s : string) :
  matches (Sym p) s -> exists c, s = String c "" /\ p c = true.
Proof. intros H. inversion H; subst. eauto. Qed.

Lemma matches_lit (c : ascii) (s : string) :
  matches (lit c) s <-> s = String c "".
Proof.
  split.
  - intros H. inversion H; subst. apply Ascii.eqb_eq in H1. now subst.
  - intros ->. constructor. apply Ascii.eqb_refl.
Qed.

End ReFacts.

(** ** The classifier *)
Module ClassifierFacts.
Import Re PyStrFacts ReFacts.

Lemma all_chars_not (c : ascii) (s : string) :
  all_chars (fun x => negb (Ascii.eqb c x)) s = true
  <-> PyStr.contains (String c "") s = false.
Proof.
  rewrite contains_char. destruct (all_chars _ s); simpl; intuition congruence.
Qed.

(** The language of [r'^\*\.[^.]+\..*\*']. *)
Lemma wildcard_tld_language (p : string) :
  matches wildcard_tld_pattern p <->
  exists l m,
    p = "*." +:+ l +:+ "." +:+ m +:+ "*"
    /\ l <> ""
    /\ PyStr.contains "." l = false
    /\ PyStr.contains line_feed m = false.
Proof.
  unfold wildcard_tld_pattern, plus. split.
  - intros H.
    apply matches_cat_inv in H as (s1 & t1 & -> & H1 & H).
    apply matches_cat_inv in H as (s2 & t2 & -> & H2 & H).
    apply matches_cat_inv in H as (s3 & t3 & -> & H3 & H).
    apply matches_cat_inv in H as (s4 & t4 & -> & H4 & H).
    apply matches_cat_inv in H as (s5 & t5 & -> & H5 & H6).
    apply matches_lit in H1, H2, H4, H6. subst.
    apply matches_cat_inv in H3 as (a & l' & -> & Ha & Hl).
    apply matches_sym_inv in Ha as (c & -> & Hc).
    exists (String c l'), s5. repeat split.
    + discriminate.
    + apply all_chars_not. cbn [all_chars]. rewrite Hc.
      now apply (sym_star_chars _ _ Hl).
    + apply all_chars_not. now apply (sym_star_chars _ _ H5).
  - intros (l & m & -> & Hl & Hdot & Hnl).
    apply all_chars_not in Hdot, Hnl.
    destruct l as [|c l]; [congruence|].
    cbn [all_chars] in Hdot. apply andb_true_iff in Hdot as [Hc Hdot].
    change ("*." +:+ String c l +:+ "." +:+ m +:+ "*")
      with ("*" +:+ "." +:+ (String c "" +:+ l) +:+ "." +:+ m +:+ "*").
    constructor; [now apply matches_lit|].
    constructor; [now apply matches_lit|].
    constructor.
    + constructor; [now constructor | now apply matches_sym_star].
    + constructor; [now apply matches_lit|].
      constructor; [now apply matches_sym_star | now apply matches_lit].
Qed.

(** When the pattern of line 108 finds a match. *)
Lemma wildcard_tld_match (s : string) :
  re_match wildcard_tld_pattern s = true <->
  exists l m r,
    s = "*." +:+ l +:+ "." +:+ m +:+ "*" +:+ r
    /\ l <> ""
    /\ PyStr.contains "." l = false
    /\ PyStr.contains line_feed m = false.
Proof.
  rewrite re_match_spec. split.
  - intros (p & q & -> & H). apply wildcard_tld_language in H.
    destruct H as (l & m & -> & H). exists l, m, q. split; [|exact H].
    now rewrite !app_assoc.
  - intros (l & m & r & -> & H).
    exists ("*." +:+ l +:+ "." +:+ m +:+ "*"), r. split.
    + now rewrite !app_assoc.
    + apply wildcard_tld_language. now exists l, m.
Qed.

Lemma clean_domain_before (domain : string) :
  clean_domain_of domain = before ":" domain.
Proof. unfold clean_domain_of. apply split_first. Qed.

(** A dot before the port is a dot of the whole string. *)
Lemma clean_domain_dot (domain : string) :
  PyStr.contains "." (clean_domain_of domain) = true ->
  PyStr.contains "." domain = true.
Proof.
  rewrite clean_domain_before. intros H.
  destruct (before_cases ":" domain) as [E | [rest E]].
  - now rewrite E.
  - rewrite E, contains_char_app, H. reflexivity.
Qed.

End ClassifierFacts.

Example categorize_examples :
  map categorize_domain
    ["example.com"; "*.a.b"; "*.a.*"; "*.sub.example.*"; ""; "nodotshere"; "*";
     "example.com:8443"]
  = [Some standard; Some simple_wildcard; Some wildcard_tld; Some wildcard_tld;
     None; None; None; Some standard].
Proof. reflexivity. Qed.

(** The dot of the pattern does not match a line feed: a later [*]
    found only across a line feed leaves the string without category. *)
Example categorize_across_line_feed :
  categorize_domain ("*.a." +:+ line_feed +:+ "*") = None.
Proof. reflexivity. Qed.

(** Exactly when the classifier answers [wildcard_tld]. *)
Lemma categorize_wildcard_tld_iff (domain : string) :
  categorize_domain domain = Some wildcard_tld <->
  PyStr.contains "." domain = true
  /\ exists l m r,
      clean_domain_of domain = "*." +:+ l +:+ "." +:+ m +:+ "*" +:+ r
      /\ l <> ""
      /\ PyStr.contains "." l = false
      /\ PyStr.contains line_feed m = false.
Proof.
  rewrite <- ClassifierFacts.wildcard_tld_match. unfold categorize_domain.
  destruct (String.eqb_spec domain "") as [->|Hne]; cbn [orb].
  { split; [discriminate | now intros [H _]]. }
  destruct (PyStr.contains "." domain); cbn [negb].
  - destruct (Re.re_match wildcard_tld_pattern (clean_domain_of domain)).
    + tauto.
    + split; [|now intros [_ H]].
      destruct (PyStr.startswith _ _); [destruct (_ && _)|];
        try discriminate; destruct (negb _); discriminate.
  - split; [discriminate | now intros [H _]].
Qed.

(** C5, as stated, fails: ["*.a.b:*"] has the shape the claim names
    ([*.], the dot-free label [a], a dot, the text [b:], another [*]),
    yet the text after the first colon is cut off before the pattern is
    tried, and what is left, ["*.a.b"], is a simple wildcard. *)
Lemma C5_counterexample_port_wildcard :
  (exists l m r : string,
      "*.a.b:*" = "*." +:+ l +:+ "." +:+ m +:+ "*" +:+ r
      /\ l <> "" /\ PyStr.contains "." l = false)
  /\ PyStr.startswith "*.a.b:*" "*." = true
  /\ categorize_domain "*.a.b:*" = Some simple_wildcard
  /\ categorize_domain "*.a.b:*" <> Some wildcard_tld.
Proof.
  split.
  - exists "a", "b:", "". split; [reflexivity | split; [discriminate | reflexivity]].
  - split; [reflexivity | split; [reflexivity | discriminate]].
Qed.

(** C5 (amended): when the text of [domain] before its first colon is
    [*.], one or more characters other than a dot, a dot, any characters
    other than a line feed, and a further [*] (followed by anything),
    [categorize_domain] returns [wildcard_tld] and not [simple_wildcard],
    although that text starts with [*.]: the pattern of line 108 is
    tried before the leading-wildcard test of line 111. *)
Theorem C5_wildcard_tld_takes_precedence (domain l m r : string) :
  clean_domain_of domain = "*." +:+ l +:+ "." +:+ m +:+ "*" +:+ r ->
  l <> "" ->
  PyStr.contains "." l = false ->
  PyStr.contains line_feed m = false ->
  PyStr.startswith (clean_domain_of domain) "*." = true
  /\ categorize_domain domain = Some wildcard_tld
  /\ categorize_domain domain <> Some simple_wildcard.
Proof.
  intros Hclean Hl Hdot Hnl.
  assert (Hre : Re.re_match wildcard_tld_pattern (clean_domain_of domain) = true).
  { apply ClassifierFacts.wildcard_tld_match. now exists l, m, r. }
  assert (Hhas : PyStr.contains "." domain = true).
  { apply ClassifierFacts.clean_domain_dot. rewrite Hclean.
    change ("*." +:+ l +:+ "." +:+ m +:+ "*" +:+ r)
      with ("*." +:+ (l +:+ "." +:+ m +:+ "*" +:+ r)).
    rewrite !PyStrFacts.contains_char_app.
    change (PyStr.contains "." ".") with true.
    now rewrite !orb_true_r. }
  assert (Hne : String.eqb domain "" = false).
  { destruct domain; [discriminate Hhas | reflexivity]. }
  assert (Hcat : categorize_domain domain = Some wildcard_tld).
  { unfold categorize_domain. now rewrite Hne, Hhas, Hre. }
  split; [|split; [exact Hcat | rewrite Hcat; discriminate]].
  rewrite Hclean. apply PyStrFacts.prefix_app.
Qed.

Lemma C5_witness :
  PyStr.startswith (clean_domain_of "*.a.*") "*." = true
  /\ categorize_domain "*.a.*" = Some wildcard_tld
  /\ categorize_domain "*.a.*" <> Some simple_wildcard.
Proof.
  apply (C5_wildcard_tld_takes_precedence "*.a.*" "a" "" "");
    [reflexivity | discriminate | reflexivity | reflexivity].
Defined.

(** ** Sequencing *)
Module MonadFacts.

Lemma bind_lift_val {A B} (a : A) (k : A -> M B) (w : world) :
  bind (lift (Val a)) k w = k a w.
Proof. reflexivity. Qed.

Lemma bind_lift_exc {A B} (e : exn) (k : A -> M B) (w : world) :
  bind (lift (Exc e)) k w = (Raise e, w).
Proof. reflexivity. Qed.

Lemma bind_ret {A B} (a : A) (k : A -> M B) (w : world) :
  bind (ret a) k w = k a w.
Proof. reflexivity. Qed.

Lemma bind_run {A B} (m : M A) (k : A -> M B) (w w1 : world) (a : A) :
  m w = (Ret a, w1) -> bind m k w = k a w1.
Proof. intros H. unfold bind. now rewrite H. Qed.

Lemma bind_raise {A B} (m : M A) (k : A -> M B) (w w1 : world) (e : exn) :
  m w = (Raise e, w1) -> bind m k w = (Raise e, w1).
Proof. intros H. unfold bind. now rewrite H. Qed.

End MonadFacts.

(** ** Cache freshness *)

Module CacheFacts.

Lemma fromtimestamp_representable (t : Z) :
  representable t = true -> fromtimestamp t = Val t.
Proof. unfold fromtimestamp. now intros ->. Qed.

Lemma fromtimestamp_raises (t : Z) :
  representable t = false -> exists e, fromtimestamp t = Exc e.
Proof.
  unfold fromtimestamp. intros ->.
  destruct (_ && _); [eauto|]. destruct (_ && _); eauto.
Qed.

Lemma fromtimestamp_val (t u : Z) :
  fromtimestamp t = Val u -> representable t = true /\ u = t.
Proof.
  unfold fromtimestamp. destruct (representable t).
  - now intros [= <-].
  - destruct (_ && _); [discriminate|]. destruct (_ && _); discriminate.
Qed.

(** The three answers of [is_cache_valid] on a file that exists. *)
Lemma is_cache_valid_file (cache_file : string) (w : world) (f : file) :
  files w !! cache_file = Some f ->
  is_cache_valid cache_file w
  = if representable (mtime f)
    then Val (now w - mtime f <? CACHE_EXPIRY_DAYS * usec_per_day)
    else match fromtimestamp (mtime f) with
         | Val _ => Val false
         | Exc e => Exc e
         end.
Proof.
  intros H. unfold is_cache_valid. rewrite H.
  destruct (representable (mtime f)) eqn:E.
  - now rewrite fromtimestamp_representable.
  - destruct (fromtimestamp_raises _ E) as [e ->]. reflexivity.
Qed.

End CacheFacts.

(** C9, as stated, fails: a file stamped in the year 10000 exists, and
    the clock minus its modification time is below 30 days, yet
    [is_cache_valid] does not return true: [datetime.fromtimestamp]
    raises [ValueError]. *)
Lemma C9_counterexample_mtime_beyond_datetime :
  files (put_file PROGRAMS_CACHE_FILE
           {| mtime := datetime_max + 1; content := Json (JArr []) |}
           (fresh_world 0 ∅)) !! PROGRAMS_CACHE_FILE
  = Some {| mtime := datetime_max + 1; content := Json (JArr []) |}
  /\ now (fresh_world 0 ∅) - (datetime_max + 1) < 30 * usec_per_day
  /\ is_cache_valid PROGRAMS_CACHE_FILE
       (put_file PROGRAMS_CACHE_FILE
          {| mtime := datetime_max + 1; content := Json (JArr []) |}
          (fresh_world 0 ∅))
     = Exc ValueError.
Proof. repeat split; vm_compute; reflexivity. Qed.

(** C9 (amended): [is_cache_valid] returns true exactly when the file
    exists, its modification time is one a [datetime] can hold, and the
    clock minus that time is strictly below 30 days; it returns false
    exactly when the file is absent or holds such a time that is 30
    days old or more; it raises exactly when the file exists with a
    modification time no [datetime] can hold.  Within that range, a
    file modified 30 days less one second ago is valid, one modified 30
    days plus one second ago is not, nor is one modified exactly 30
    days ago. *)
Theorem C9_is_cache_valid_iff_fresh (cache_file : string) (w : world) :
  (is_cache_valid cache_file w = Val true <->
   exists f, files w !! cache_file = Some f
             /\ representable (mtime f) = true
             /\ now w - mtime f < 30 * usec_per_day)
  /\ (is_cache_valid cache_file w = Val false <->
      files w !! cache_file = None
      \/ exists f, files w !! cache_file = Some f
                   /\ representable (mtime f) = true
                   /\ 30 * usec_per_day <= now w - mtime f)
  /\ ((exists e, is_cache_valid cache_file w = Exc e) <->
      exists f, files w !! cache_file = Some f
                /\ representable (mtime f) = false)
  /\ (forall c,
        representable (now w - (30 * usec_per_day - usec_per_second)) = true ->
        is_cache_valid cache_file
          (put_file cache_file
             {| mtime := now w - (30 * usec_per_day - usec_per_second);
                content := c |} w) = Val true)
  /\ (forall c,
        representable (now w - (30 * usec_per_day + usec_per_second)) = true ->
        is_cache_valid cache_file
          (put_file cache_file
             {| mtime := now w - (30 * usec_per_day + usec_per_second);
                content := c |} w) = Val false)
  /\ (forall c,
        representable (now w - 30 * usec_per_day) = true ->
        is_cache_valid cache_file
          (put_file cache_file
             {| mtime := now w - 30 * usec_per_day; content := c |} w)
        = Val false).
Proof.
  assert (Hput : forall t c,
             representable t = true ->
             is_cache_valid cache_file
               (put_file cache_file {| mtime := t; content := c |} w)
             = Val (now w - t <? CACHE_EXPIRY_DAYS * usec_per_day)).
  { intros t c Ht.
    rewrite (CacheFacts.is_cache_valid_file _ _ {| mtime := t; content := c |})
      by (cbn [files put_file]; apply lookup_insert_eq).
    cbn [mtime]. now rewrite Ht. }
  split; [|split; [|split; [|split; [|split]]]].
  - destruct (files w !! cache_file) as [f|] eqn:E.
    + rewrite (CacheFacts.is_cache_valid_file _ _ f E).
      destruct (representable (mtime f)) eqn:R.
      * split.
        -- intros [= H]. apply Z.ltb_lt in H. exists f. auto.
        -- intros (g & [= <-] & _ & H). f_equal. now apply Z.ltb_lt.
      * destruct (CacheFacts.fromtimestamp_raises _ R) as [e ->].
        split; [discriminate|]. intros (g & [= <-] & H & _). congruence.
    + unfold is_cache_valid. rewrite E. split; [discriminate|].
      now intros (g & [=] & _).
  - destruct (files w !! cache_file) as [f|] eqn:E.
    + rewrite (CacheFacts.is_cache_valid_file _ _ f E).
      destruct (representable (mtime f)) eqn:R.
      * split.
        -- intros [= H]. apply Z.ltb_ge in H. right. exists f. auto.
        -- intros [[=]|(g & [= <-] & _ & H)]. f_equal. now apply Z.ltb_ge.
      * destruct (CacheFacts.fromtimestamp_raises _ R) as [e ->].
        split; [discriminate|]. intros [[=]|(g & [= <-] & H & _)]. congruence.
    + unfold is_cache_valid. rewrite E. split; [now left | reflexivity].
  - destruct (files w !! cache_file) as [f|] eqn:E.
    + rewrite (CacheFacts.is_cache_valid_file _ _ f E).
      destruct (representable (mtime f)) eqn:R.
      * split; [now intros [e [=]]|]. intros (g & [= <-] & H). congruence.
      * destruct (CacheFacts.fromtimestamp_raises _ R) as [e ->].
        split; [eauto|]. intros _. eauto.
    + unfold is_cache_valid. rewrite E. split; [now intros [e [=]]|].
      now intros (g & [=] & _).
  - intros c Ht. rewrite (Hput _ c Ht). f_equal. apply Z.ltb_lt.
    unfold CACHE_EXPIRY_DAYS, usec_per_day, usec_per_second. lia.
  - intros c Ht. rewrite (Hput _ c Ht). f_equal. apply Z.ltb_ge.
    unfold CACHE_EXPIRY_DAYS, usec_per_day, usec_per_second. lia.
  - intros c Ht. rewrite (Hput _ c Ht). f_equal. apply Z.ltb_ge.
    unfold CACHE_EXPIRY_DAYS. lia.
Qed.

(** The boundary, on a clock at 1 January 2026. *)
Lemma C9_witness :
  is_cache_valid PROGRAMS_CACHE_FILE
    (put_file PROGRAMS_CACHE_FILE
       {| mtime := 1767225600000000 - (30 * usec_per_day - usec_per_second);
          content := Garbage |} (fresh_world 1767225600000000 ∅)) = Val true
  /\ is_cache_valid PROGRAMS_CACHE_FILE
       (put_file PROGRAMS_CACHE_FILE
          {| mtime := 1767225600000000 - (30 * usec_per_day + usec_per_second);
             content := Garbage |} (fresh_world 1767225600000000 ∅)) = Val false.
Proof.
  destruct (C9_is_cache_valid_iff_fresh PROGRAMS_CACHE_FILE
              (fresh_world 1767225600000000 ∅))
    as (_ & _ & _ & Hin & Hout & _).
  split; [apply (Hin Garbage) | apply (Hout Garbage)]; reflexivity.
Defined.

(** ** Aggregation *)
Module MergeFacts.

Lemma merge_comm (a b : domain_sets) : merge a b = merge b a.
Proof.
  unfold merge. f_equal; apply (comm_L (∪)).
Qed.

Lemma merge_assoc (a b c : domain_sets) :
  merge (merge a b) c = merge a (merge b c).
Proof.
  unfold merge. cbn. f_equal; symmetry; apply (assoc_L (∪)).
Qed.

Lemma merge_idemp (a : domain_sets) : merge a a = a.
Proof.
  destruct a. unfold merge. cbn. f_equal; apply (idemp_L (∪)).
Qed.

Lemma merge_swap (acc a b : domain_sets) :
  merge (merge acc a) b = merge (merge acc b) a.
Proof.
  rewrite !merge_assoc. f_equal. apply merge_comm.
Qed.

Lemma fold_merge_perm (l1 l2 : list domain_sets) :
  Permutation l1 l2 ->
  forall acc, fold_left merge l1 acc = fold_left merge l2 acc.
Proof.
  induction 1 as [|x l1 l2 _ IH|x y l|l1 l2 l3 _ IH1 _ IH2]; intros acc; cbn.
  - reflexivity.
  - apply IH.
  - now rewrite merge_swap.
  - now rewrite IH1.
Qed.

End MergeFacts.

(** C7: merging per-program results is commutative, associative and
    idempotent, and two completion orders of the same results leave the
    same three final sets. *)
Theorem C7_merge_order_independent (completed completed' : list domain_sets) :
  Permutation completed completed' ->
  aggregate completed = aggregate completed'
  /\ (forall a b, merge a b = merge b a)
  /\ (forall a b c, merge (merge a b) c = merge a (merge b c))
  /\ (forall a, merge a a = a).
Proof.
  intros H. split; [|split; [|split]].
  - unfold aggregate. now apply MergeFacts.fold_merge_perm.
  - apply MergeFacts.merge_comm.
  - apply MergeFacts.merge_assoc.
  - apply MergeFacts.merge_idemp.
Qed.

Lemma C7_witness :
  aggregate [sets_a; sets_b] = aggregate [sets_b; sets_a]
  /\ (forall a b, merge a b = merge b a)
  /\ (forall a b c, merge (merge a b) c = merge a (merge b c))
  /\ (forall a, merge a a = a).
Proof.
  apply (C7_merge_order_independent [sets_a; sets_b] [sets_b; sets_a]).
  apply perm_swap.
Defined.

(** ** The rate-limited client *)
Module ClientFacts.
Section WithPeer.

Variable peer : nat -> request -> reply.

Lemma attempt_body_frame (req : request) (attempt : nat) (w : world) :
  round_frame w (attempt_body peer req attempt w).2.
Proof.
  unfold attempt_body.
  destruct (peer (requests_sent w) req) as [code hdr [j|]| |];
    repeat match goal with
      | |- context [if ?b then _ else _] => destruct b
      | |- context [match ?h with NoRetryAfter => _ | _ => _ end] => destruct h
      end;
    split; reflexivity.
Qed.

Lemma for_attempts_frame (req : request) (range : list nat) (w : world) :
  finished (for_attempts peer req range w).1 = true
  /\ loop_frame (length range) w (for_attempts peer req range w).2.
Proof.
  revert w. induction range as [|attempt rest IH]; intros w; cbn [for_attempts].
  - split; [reflexivity|]. split; cbn; try reflexivity. lia.
  - pose proof (attempt_body_frame req attempt w) as F.
    destruct (attempt_body peer req attempt w) as [[|j|e] w1]; cbn [snd] in F.
    + destruct (IH w1) as [Hfin L]. split; [exact Hfin|].
      destruct F, L. split; try congruence. cbn [length]. lia.
    + split; [reflexivity|]. destruct F. split; cbn [snd length]; try assumption. lia.
    + split; [reflexivity|]. destruct F. split; cbn [snd length]; try assumption. lia.
Qed.

Lemma attempt_body_result (req : request) (attempt : nat) (w : world) :
  match (attempt_body peer req attempt w).1 with
  | Next => True
  | Return j => explained peer req (Ret j)
  | Throw e => explained peer req (Raise e)
  end.
Proof.
  unfold attempt_body, explained.
  destruct (peer (requests_sent w) req) as [code hdr [j|]| |] eqn:E;
    cbn [fst]; eauto.
  - destruct (Z.eqb_spec code 200) as [->|_]; cbn [fst]; [eauto|].
    destruct (code =? 429).
    + destruct hdr as [|secs|]; [| destruct (secs <? 0); [|destruct (MAX_SLEEP_SECONDS <? secs)]|]; exact I.
    + destruct (400 <=? code); cbn [fst]; auto.
  - destruct (code =? 200); [exact I|].
    destruct (code =? 429).
    + destruct hdr as [|secs|]; [| destruct (secs <? 0); [|destruct (MAX_SLEEP_SECONDS <? secs)]|]; exact I.
    + destruct (400 <=? code); cbn [fst]; auto.
Qed.

Lemma for_attempts_result (req : request) (range : list nat) (w : world) :
  explained peer req (for_attempts peer req range w).1.
Proof.
  revert w. induction range as [|attempt rest IH]; intros w; cbn [for_attempts].
  - now left.
  - pose proof (attempt_body_result req attempt w) as R.
    destruct (attempt_body peer req attempt w) as [[|j|e] w1]; cbn [fst] in R.
    + apply IH.
    + exact R.
    + exact R.
Qed.

Lemma make_api_request_result (req : request) (w : world) :
  0 < permits w -> explained peer req (make_api_request peer req w).1.
Proof.
  intros H. apply Z.ltb_lt in H.
  unfold make_api_request, with_semaphore. rewrite H.
  pose proof (for_attempts_result req (seq 0 MAX_RETRIES) (acquire w)) as R.
  now destruct (for_attempts peer req (seq 0 MAX_RETRIES) (acquire w))
    as [[j|e| |] w'].
Qed.

End WithPeer.
End ClientFacts.

(** C8: the semaphore has [MAX_REQUESTS_PER_MINUTE // 60 = 10] slots,
    and a call of [make_api_request] that gets a slot comes to an end
    (by [return] or by exception) with the slot given back: the free
    slots are as before the call and the log gained exactly one acquire
    followed by one release. *)
Theorem C8_semaphore_released_on_every_exit
    (peer : nat -> request -> reply) (req : request) (w : world) :
  0 < permits w ->
  semaphore_capacity = MAX_REQUESTS_PER_MINUTE / 60
  /\ semaphore_capacity = 10
  /\ finished (make_api_request peer req w).1 = true
  /\ permits (make_api_request peer req w).2 = permits w
  /\ slot_events (make_api_request peer req w).2
     = Release :: Acquire :: slot_events w.
Proof.
  intros Hfree. split; [reflexivity|]. split; [reflexivity|].
  unfold make_api_request, with_semaphore.
  apply Z.ltb_lt in Hfree. rewrite Hfree.
  destruct (ClientFacts.for_attempts_frame peer req (seq 0 MAX_RETRIES) (acquire w))
    as [Hfin [Hp _ Hs _]].
  destruct (for_attempts peer req (seq 0 MAX_RETRIES) (acquire w)) as [[j|e| |] w'];
    cbn [fst snd finished] in *; try discriminate.
  - repeat split; [cbn; rewrite Hp; cbn; lia|].
    unfold slot_events in *. cbn [log release List.filter is_slot_event].
    now rewrite Hs.
  - repeat split; [cbn; rewrite Hp; cbn; lia|].
    unfold slot_events in *. cbn [log release List.filter is_slot_event].
    now rewrite Hs.
Qed.

Lemma C8_witness :
  semaphore_capacity = MAX_REQUESTS_PER_MINUTE / 60
  /\ semaphore_capacity = 10
  /\ finished (make_api_request peer_interrupted (ListPrograms 1 PAGE_SIZE)
                 (fresh_world 0 ∅)).1 = true
  /\ permits (make_api_request peer_interrupted (ListPrograms 1 PAGE_SIZE)
                (fresh_world 0 ∅)).2 = permits (fresh_world 0 ∅)
  /\ slot_events (make_api_request peer_interrupted (ListPrograms 1 PAGE_SIZE)
                    (fresh_world 0 ∅)).2
     = Release :: Acquire :: slot_events (fresh_world 0 ∅).
Proof.
  apply (C8_semaphore_released_on_every_exit peer_interrupted
           (ListPrograms 1 PAGE_SIZE) (fresh_world 0 ∅)).
  reflexivity.
Defined.

(** The slot is given back when an exception leaves the loop. *)
Example interrupt_releases_slot :
  make_api_request peer_interrupted (ListPrograms 1 PAGE_SIZE) (fresh_world 0 ∅)
  = (Raise KeyboardInterrupt,
     {| now := 100000; permits := 10; files := ∅; unwritable := ∅;
        log := [Release; Get (ListPrograms 1 100); Sleep 100000;
                Get (ListPrograms 1 100); Acquire] |}).
Proof. reflexivity. Qed.




(** A [Retry-After] beyond what [time.sleep] accepts raises in the
    [try] block: the handler sleeps its back-off instead. *)
Example oversized_retry_after_backs_off :
  attempt_body (fun _ _ => Response 429 (RetryAfter 10000000000) None)
    (ListPrograms 1 PAGE_SIZE) 0 (fresh_world 0 ∅)
  = (Next,
     sleep 100000 (record (Get (ListPrograms 1 PAGE_SIZE)) (fresh_world 0 ∅)))
  /\ attempt_body (fun _ _ => Response 429 (RetryAfter 9223372036) None)
       (ListPrograms 1 PAGE_SIZE) 0 (fresh_world 0 ∅)
     = (Next,
        sleep 9223372036000000
          (record (Get (ListPrograms 1 PAGE_SIZE)) (fresh_world 0 ∅))).
Proof. split; reflexivity. Qed.

(** A single 429 with [Retry-After: 3]: one retry after three seconds. *)
Example single_429_one_retry :
  make_api_request peer_429_once (ListPrograms 1 PAGE_SIZE) (fresh_world 0 ∅)
  = (Ret (JStr "ok"),
     {| now := 3000000; permits := 10; files := ∅; unwritable := ∅;
        log := [Release; Get (ListPrograms 1 100); Sleep 3000000;
                Get (ListPrograms 1 100); Acquire] |}).
Proof. reflexivity. Qed.

(** ** The scope extractor *)
Module ExtractFacts.

Lemma scan_scope_ok (scope : json) (domains : domain_sets) :
  scope_entry_ok scope = true ->
  exists domains', scan_scope scope domains = Val domains'.
Proof.
  unfold scope_entry_ok, scan_scope.
  destruct scope as [| | | | |fields]; try discriminate.
  cbn [get getitem and_then].
  destruct (lookup fields "attributes") as [[| | | | |attributes]|];
    try discriminate; cbn [get and_then].
  - destruct (lookup attributes "asset_type") as [asset_type|]; cbn [and_then].
    + destruct (eq_str asset_type "URL"); [|eauto].
      cbn [getitem and_then].
      destruct (lookup attributes "asset_identifier") as [[| | |url| |]|];
        try discriminate.
      intros _. cbn [and_then domain_of_url split].
      destruct (negb _); [|eauto].
      destruct (categorize_domain _); eauto.
    + cbn [lookup and_then eq_str]. eauto.
  - intros _. cbn [lookup and_then eq_str]. eauto.
Qed.

Lemma scan_scopes_ok (scopes : list json) (domains : domain_sets) :
  forallb scope_entry_ok scopes = true ->
  exists domains', scan_scopes scopes domains = Val domains'.
Proof.
  revert domains. induction scopes as [|scope rest IH]; intros domains H.
  - cbn. eauto.
  - cbn [forallb] in H. apply andb_true_iff in H as [H1 H2].
    cbn [scan_scopes].
    destruct (scan_scope_ok scope domains H1) as [d1 ->].
    cbn [and_then]. now apply IH.
Qed.

Lemma collect_domains_ok (data : json) (w : world) :
  scope_data_ok data = true ->
  exists sets, collect_domains data w = (Ret sets, w).
Proof.
  unfold scope_data_ok, collect_domains.
  destruct data as [| | | | |fields];
    try (intros H; apply negb_true_iff in H; rewrite H; unfold ret; eauto).
  destruct (truthy (JObj fields)); [|unfold ret; eauto].
  unfold bind, lift, get, getitem.
  destruct (lookup fields "data") as [d|] eqn:E; [|unfold ret; cbn; eauto].
  destruct d as [| | | |items|];
    try (intros H; apply negb_true_iff in H; rewrite H; unfold ret; eauto).
  intros H. destruct (truthy (JArr items)); [|unfold ret; eauto].
  cbn [iter]. destruct (scan_scopes_ok items empty_sets H) as [sets ->]. eauto.
Qed.

Lemma collect_domains_no_data (data : json) (w : world) :
  no_scope_data data = true -> collect_domains data w = (Ret empty_sets, w).
Proof.
  unfold no_scope_data, collect_domains.
  destruct (truthy data) eqn:Ht; [|reflexivity]. cbn [negb orb].
  destruct data as [| | | | |fields]; try discriminate.
  cbn [get]. destruct (lookup fields "data") as [d|];
    rewrite MonadFacts.bind_lift_val.
  - intros H. apply negb_true_iff in H. now rewrite H.
  - reflexivity.
Qed.

Lemma scan_scope_passed_over (scope : json) (domains : domain_sets) :
  passed_over scope = true -> scan_scope scope domains = Val domains.
Proof.
  unfold passed_over, scan_scope.
  destruct scope as [| | | | |fields]; try discriminate.
  cbn [get and_then].
  destruct (lookup fields "attributes") as [[| | | | |attributes]|];
    try discriminate; cbn [get and_then].
  - destruct (lookup attributes "asset_type") as [asset_type|]; cbn [and_then].
    + intros H. apply negb_true_iff in H. now rewrite H.
    + reflexivity.
  - reflexivity.
Qed.

(** Scanning a list of entries is scanning the entries that are not
    passed over. *)
Lemma scan_scopes_filter (scopes : list json) (domains : domain_sets) :
  scan_scopes scopes domains
  = scan_scopes (List.filter (fun scope => negb (passed_over scope)) scopes)
      domains.
Proof.
  revert domains. induction scopes as [|scope rest IH]; intros domains.
  - reflexivity.
  - cbn [List.filter scan_scopes].
    destruct (passed_over scope) eqn:E; cbn [negb].
    + rewrite (scan_scope_passed_over _ _ E). cbn [and_then]. apply IH.
    + cbn [scan_scopes]. destruct (scan_scope scope domains); cbn [and_then].
      * apply IH.
      * reflexivity.
Qed.

Lemma collect_domains_list (fields : list (string * json)) (items : list json)
    (w : world) :
  lookup fields "data" = Some (JArr items) ->
  collect_domains (JObj fields) w = lift (scan_scopes items empty_sets) w.
Proof.
  intros H. unfold collect_domains.
  assert (Hdata : truthy (JObj fields) = true).
  { destruct fields; [discriminate H | reflexivity]. }
  rewrite Hdata. cbn [get getitem]. rewrite H, MonadFacts.bind_lift_val.
  destruct items as [|item items]; [reflexivity|].
  cbn [truthy]. now rewrite !MonadFacts.bind_lift_val.
Qed.

End ExtractFacts.

Example domain_of_foo_url :
  domain_of_url (JStr foo_url) = Val "foo.example.com:443".
Proof. reflexivity. Qed.

(** C3, as stated, fails: the string put into the standard set is
    ["foo.example.com:443"], port included; ["foo.example.com"] is not
    in the set. *)
Lemma C3_counterexample_port_kept :
  exists sets w',
    extract_domains_from_program peer_foo (program_with_handle (JStr "acme"))
      (fresh_world 0 ∅) = (Ret sets, w')
    /\ "foo.example.com:443" ∈ standard_set sets
    /\ "foo.example.com" ∉ standard_set sets.
Proof.
  eexists _, _. split; [reflexivity|]. cbn. split.
  - apply elem_of_union_l, elem_of_singleton. reflexivity.
  - rewrite elem_of_union, elem_of_singleton, elem_of_empty.
    intros [H|[]]. discriminate H.
Qed.

(** C3 (amended): for the entry with asset type [URL] and identifier
    [https://Foo.EXAMPLE.com:443/path] the extractor strips the scheme
    and the path, lowercases and trims, and puts the remaining string
    ["foo.example.com:443"], with its port, into the standard set; the
    port is only left out of the text the classifier looks at. *)
Theorem C3_url_entry_yields_host_with_port
    (peer : nat -> request -> reply) (handle : json) (w w' : world) :
  truthy handle = true ->
  make_api_request peer (ListScopes handle PAGE_SIZE) w
  = (Ret (JObj [("data", JArr [foo_entry])]), w') ->
  exists sets,
    extract_domains_from_program peer (program_with_handle handle) w
    = (Ret sets, w')
    /\ standard_set sets = {["foo.example.com:443"]}
    /\ simple_wildcard_set sets = ∅
    /\ wildcard_tld_set sets = ∅
    /\ domain_of_url (JStr foo_url) = Val "foo.example.com:443"
    /\ clean_domain_of "foo.example.com:443" = "foo.example.com"
    /\ categorize_domain "foo.example.com:443" = Some standard.
Proof.
  intros Hhandle Hreq.
  exists (add_domain standard "foo.example.com:443" empty_sets).
  split; [|split; [|repeat split]].
  - unfold extract_domains_from_program.
    change (handle_of (program_with_handle handle)) with (Val handle).
    rewrite MonadFacts.bind_lift_val, Hhandle. cbn [negb].
    rewrite (MonadFacts.bind_run _ _ _ _ _ Hreq). reflexivity.
  - cbn. apply (right_id_L ∅ (∪)).
Qed.

Lemma C3_witness :
  exists sets,
    extract_domains_from_program peer_foo (program_with_handle (JStr "acme"))
      (fresh_world 0 ∅)
    = (Ret sets,
       release (record (Get (ListScopes (JStr "acme") PAGE_SIZE))
                  (acquire (fresh_world 0 ∅))))
    /\ standard_set sets = {["foo.example.com:443"]}
    /\ simple_wildcard_set sets = ∅
    /\ wildcard_tld_set sets = ∅
    /\ domain_of_url (JStr foo_url) = Val "foo.example.com:443"
    /\ clean_domain_of "foo.example.com:443" = "foo.example.com"
    /\ categorize_domain "foo.example.com:443" = Some standard.
Proof.
  apply (C3_url_entry_yields_host_with_port peer_foo (JStr "acme")
           (fresh_world 0 ∅)); reflexivity.
Defined.

(** C1, as stated, fails: a URL entry whose identifier is the number 5
    makes [url.split] raise [AttributeError], which leaves the
    extractor. *)
Lemma C1_counterexample_non_string_identifier :
  extract_domains_from_program peer_numeric_identifier
    (program_with_handle (JStr "acme")) (fresh_world 0 ∅)
  = (Raise AttributeError,
     release (record (Get (ListScopes (JStr "acme") PAGE_SIZE))
                (acquire (fresh_world 0 ∅)))).
Proof. reflexivity. Qed.

(** A URL entry without [asset_identifier] raises [KeyError] at
    [scope['attributes']['asset_identifier']]. *)
Example missing_identifier_raises :
  (extract_domains_from_program peer_missing_identifier
     (program_with_handle (JStr "acme")) (fresh_world 0 ∅)).1
  = Raise KeyError.
Proof. reflexivity. Qed.

Lemma handle_of_shape_ok (program : json) :
  program_shape_ok program = true -> exists handle, handle_of program = Val handle.
Proof.
  unfold program_shape_ok, handle_of.
  destruct program as [| | | | |fields]; try discriminate.
  cbn [get and_then].
  destruct (lookup fields "attributes") as [[| | | | |attributes]|];
    try discriminate; intros _; cbn [and_then get].
  - destruct (lookup attributes "handle"); eauto.
  - cbn. eauto.
Qed.

(** C1 (amended): unless it is interrupted, the extractor returns the
    three category sets without raising whenever the values have the
    shapes the code reads them with: the program is an object whose
    [attributes], if present, is an object; every decoded 200 body is
    falsy or an object whose [data], if present, is falsy or a list of
    objects whose [attributes], if present, is an object that, when
    its [asset_type] is [URL], holds a string [asset_identifier].
    A missing or falsy handle gives three empty sets and no request;
    a failed request, a falsy body and a body without truthy [data]
    give three empty sets; entries without [attributes] or with
    another [asset_type] are skipped: the sets are those of the
    remaining entries. *)
Theorem C1_extractor_returns_sets_on_expected_shapes
    (peer : nat -> request -> reply) (program : json) (w : world) :
  program_shape_ok program = true ->
  (forall n req, peer n req <> Interrupt) ->
  (forall n req h j,
      peer n req = Response 200 h (Some j) -> scope_data_ok j = true) ->
  0 < permits w ->
  exists sets w',
    extract_domains_from_program peer program w = (Ret sets, w')
    /\ (forall handle,
          handle_of program = Val handle -> truthy handle = false ->
          sets = empty_sets /\ w' = w)
    /\ (forall handle data w1,
          handle_of program = Val handle -> truthy handle = true ->
          make_api_request peer (ListScopes handle PAGE_SIZE) w = (Ret data, w1) ->
          no_scope_data data = true ->
          sets = empty_sets /\ w' = w1)
    /\ (forall handle fields items w1,
          handle_of program = Val handle -> truthy handle = true ->
          make_api_request peer (ListScopes handle PAGE_SIZE) w
          = (Ret (JObj fields), w1) ->
          lookup fields "data" = Some (JArr items) ->
          scan_scopes
            (List.filter (fun scope => negb (passed_over scope)) items)
            empty_sets = Val sets
          /\ (forallb passed_over items = true -> sets = empty_sets)
          /\ w' = w1).
Proof.
  intros Hprog Hint Hbody Hfree.
  destruct (handle_of_shape_ok program Hprog) as [handle Hh].
  unfold extract_domains_from_program. rewrite Hh, MonadFacts.bind_lift_val.
  destruct (truthy handle) eqn:Ht; cbn [negb].
  - pose proof (ClientFacts.make_api_request_result peer
                  (ListScopes handle PAGE_SIZE) w Hfree) as R.
    destruct (make_api_request peer (ListScopes handle PAGE_SIZE) w)
      as [[j|e| |] w1] eqn:E; cbn [fst explained] in R.
    + rewrite (MonadFacts.bind_run _ _ _ _ _ E).
      assert (Hok : scope_data_ok j = true).
      { destruct R as [->|(n & h & Hn)]; [reflexivity | eauto]. }
      destruct (ExtractFacts.collect_domains_ok j w1 Hok) as [sets Hsets].
      rewrite Hsets. exists sets, w1. split; [reflexivity|]. split; [|split].
      * intros handle' [= <-] Hf. congruence.
      * intros handle' data w2 [= <-] _ Hreq Hno.
        rewrite E in Hreq. injection Hreq as <- <-.
        rewrite (ExtractFacts.collect_domains_no_data j w1 Hno) in Hsets.
        now injection Hsets as <-.
      * intros handle' fields items w2 [= <-] _ Hreq Hitems.
        rewrite E in Hreq. injection Hreq as -> <-.
        rewrite (ExtractFacts.collect_domains_list fields items w1 Hitems) in Hsets.
        rewrite ExtractFacts.scan_scopes_filter in Hsets. unfold lift in Hsets.
        destruct (scan_scopes _ empty_sets) as [sets'|e] eqn:Hscan;
          [|discriminate Hsets].
        injection Hsets as ->. split; [reflexivity|]. split; [|reflexivity].
        intros Hall.
        assert (Hnone : List.filter (fun scope => negb (passed_over scope)) items
                        = []).
        { clear -Hall. induction items as [|item items IH]; [reflexivity|].
          cbn [forallb] in Hall. apply andb_true_iff in Hall as [H1 H2].
          cbn [List.filter]. rewrite H1. cbn [negb]. now apply IH. }
        rewrite Hnone in Hscan. now injection Hscan as <-.
    + destruct R as [n Hn]. now apply Hint in Hn.
    + contradiction.
    + contradiction.
  - exists empty_sets, w. split; [reflexivity|]. split; [auto|].
    split.
    + intros handle' data w1 [= <-] Hf. congruence.
    + intros handle' fields items w1 [= <-] Hf. congruence.
Qed.

Lemma C1_witness :
  exists sets w',
    extract_domains_from_program peer_foo (program_with_handle (JStr "acme"))
      (fresh_world 0 ∅) = (Ret sets, w')
    /\ (forall handle,
          handle_of (program_with_handle (JStr "acme")) = Val handle ->
          truthy handle = false ->
          sets = empty_sets /\ w' = fresh_world 0 ∅)
    /\ (forall handle data w1,
          handle_of (program_with_handle (JStr "acme")) = Val handle ->
          truthy handle = true ->
          make_api_request peer_foo (ListScopes handle PAGE_SIZE)
            (fresh_world 0 ∅) = (Ret data, w1) ->
          no_scope_data data = true ->
          sets = empty_sets /\ w' = w1)
    /\ (forall handle fields items w1,
          handle_of (program_with_handle (JStr "acme")) = Val handle ->
          truthy handle = true ->
          make_api_request peer_foo (ListScopes handle PAGE_SIZE)
            (fresh_world 0 ∅) = (Ret (JObj fields), w1) ->
          lookup fields "data" = Some (JArr items) ->
          scan_scopes
            (List.filter (fun scope => negb (passed_over scope)) items)
            empty_sets = Val sets
          /\ (forallb passed_over items = true -> sets = empty_sets)
          /\ w' = w1).
Proof.
  apply (C1_extractor_returns_sets_on_expected_shapes peer_foo
           (program_with_handle (JStr "acme")) (fresh_world 0 ∅)).
  - reflexivity.
  - intros n req. discriminate.
  - intros n req h j [= _ <-]. reflexivity.
  - reflexivity.
Defined.

(** Entries without [attributes], with an [asset_type] other than
    [URL] and with no [asset_type] leave the sets as they are. *)
Example entries_passed_over :
  scan_scopes
    [JObj [("id", JNum 1)];
     JObj [("attributes", JObj [("asset_type", JStr "CIDR");
                                ("asset_identifier", JStr "10.0.0.0/8")])];
     JObj [("attributes", JObj [("asset_identifier", JStr "a.example.com")])];
     foo_entry]
    empty_sets
  = Val (add_domain standard "foo.example.com:443" empty_sets).
Proof. reflexivity. Qed.

(** Without a handle: empty sets, and nothing is requested. *)
Example no_handle_no_request :
  map (fun program =>
         extract_domains_from_program peer_foo program (fresh_world 0 ∅))
    [JObj []; JObj [("attributes", JObj [])];
     program_with_handle JNull; program_with_handle (JStr "")]
  = repeat (Ret empty_sets, fresh_world 0 ∅) 4.
Proof. reflexivity. Qed.

(** ** The paginator *)

(** C4, as stated, fails: with a fresh cache file that does not decode,
    [json.load] raises and the exception leaves [fetch_all_programs];
    nothing is requested, although the peer would have served the
    listing. *)
Lemma C4_counterexample_undecodable_cache_raises :
  is_cache_valid PROGRAMS_CACHE_FILE (fresh_world usec_per_day garbage_cache)
  = Val true
  /\ fetch_all_programs peer_two_pages 5 (fresh_world usec_per_day garbage_cache)
     = (Raise JSONDecodeError, fresh_world usec_per_day garbage_cache)
  /\ (refetch peer_two_pages 5 (fresh_world usec_per_day garbage_cache)).1
     = Ret (JArr (programs_from 0 137)).
Proof. repeat split; vm_compute; reflexivity. Qed.

(** C4 (amended): when the cache file exists and is fresh but cannot be
    read or decoded, [fetch_all_programs] lets the exception out and
    requests nothing; the listing is fetched again only when
    [is_cache_valid] fails, that is when the file is absent or too
    old.  (A modification time no [datetime] can hold makes
    [is_cache_valid] itself raise; that exception is let out in the
    same way.) *)
Theorem C4_unreadable_fresh_cache_propagates
    (peer : nat -> request -> reply) (fuel : nat) (w : world) (f : file) :
  files w !! PROGRAMS_CACHE_FILE = Some f ->
  now w - mtime f < 30 * usec_per_day ->
  (representable (mtime f) = true ->
   (content f = Garbage ->
    fetch_all_programs peer fuel w = (Raise JSONDecodeError, w))
   /\ (content f = Unreadable ->
       fetch_all_programs peer fuel w = (Raise OSError, w))
   /\ (forall j, content f = Json j ->
       fetch_all_programs peer fuel w = (Ret j, w)))
  /\ (representable (mtime f) = false ->
      exists e, fetch_all_programs peer fuel w = (Raise e, w))
  /\ (forall w0, is_cache_valid PROGRAMS_CACHE_FILE w0 = Val false ->
      fetch_all_programs peer fuel w0 = refetch peer fuel w0).
Proof.
  intros Hfile Hfresh. split; [|split].
  - intros Hrep.
    assert (Hvalid : is_cache_valid PROGRAMS_CACHE_FILE w = Val true).
    { rewrite (CacheFacts.is_cache_valid_file _ _ f Hfile), Hrep.
      f_equal. now apply Z.ltb_lt. }
    unfold fetch_all_programs. rewrite Hvalid. unfold load_json. rewrite Hfile.
    repeat split.
    + now intros ->.
    + now intros ->.
    + now intros j ->.
  - intros Hrep. unfold fetch_all_programs.
    rewrite (CacheFacts.is_cache_valid_file _ _ f Hfile), Hrep.
    destruct (CacheFacts.fromtimestamp_raises _ Hrep) as [e ->]. eauto.
  - intros w0 Hinvalid. unfold fetch_all_programs. now rewrite Hinvalid.
Qed.

Lemma C4_witness :
  (representable (mtime {| mtime := 0; content := Garbage |}) = true ->
   (content {| mtime := 0; content := Garbage |} = Garbage ->
    fetch_all_programs peer_two_pages 5 (fresh_world usec_per_day garbage_cache)
    = (Raise JSONDecodeError, fresh_world usec_per_day garbage_cache))
   /\ (content {| mtime := 0; content := Garbage |} = Unreadable ->
       fetch_all_programs peer_two_pages 5 (fresh_world usec_per_day garbage_cache)
       = (Raise OSError, fresh_world usec_per_day garbage_cache))
   /\ (forall j, content {| mtime := 0; content := Garbage |} = Json j ->
       fetch_all_programs peer_two_pages 5 (fresh_world usec_per_day garbage_cache)
       = (Ret j, fresh_world usec_per_day garbage_cache)))
  /\ (representable (mtime {| mtime := 0; content := Garbage |}) = false ->
      exists e,
        fetch_all_programs peer_two_pages 5
          (fresh_world usec_per_day garbage_cache)
        = (Raise e, fresh_world usec_per_day garbage_cache))
  /\ (forall w0, is_cache_valid PROGRAMS_CACHE_FILE w0 = Val false ->
      fetch_all_programs peer_two_pages 5 w0 = refetch peer_two_pages 5 w0).
Proof.
  apply (C4_unreadable_fresh_cache_propagates peer_two_pages 5
           (fresh_world usec_per_day garbage_cache)
           {| mtime := 0; content := Garbage |}).
  - vm_compute. reflexivity.
  - vm_compute. reflexivity.
Defined.

Module PaginatorFacts.
Section WithPeer.

Variable peer : nat -> request -> reply.

(** One round of the [while True] loop, once the client has answered. *)
Lemma fetch_pages_round (fuel : nat) (page : Z) (programs : list json)
    (w w1 : world) (data : json) :
  make_api_request peer (ListPrograms page PAGE_SIZE) w = (Ret data, w1) ->
  fetch_pages peer (S fuel) page programs w
  = (if negb (truthy data) then ret programs else
     let* d := lift (get data "data" JNull) in
     if negb (truthy d) then ret programs else
     let* page_data := lift (getitem data "data") in
     let* items := lift (iter page_data) in
     let* has_links := lift (contains "links" data) in
     let* has_next :=
       (if has_links : bool then
          let* links := lift (getitem data "links") in
          lift (contains "next" links)
        else ret false) in
     if has_next : bool then
       act (sleep RATE_LIMIT_DELAY)
       >> fetch_pages peer fuel (page + 1) (programs ++ items)%list
     else ret (programs ++ items)%list) w1.
Proof.
  intros H. cbn [fetch_pages]. now rewrite (MonadFacts.bind_run _ _ _ _ _ H).
Qed.

Lemma fetch_pages_no_data (fuel : nat) (page : Z) (programs : list json)
    (w w1 : world) (data : json) :
  make_api_request peer (ListPrograms page PAGE_SIZE) w = (Ret data, w1) ->
  truthy data = false
  \/ (exists fields, data = JObj fields
      /\ (lookup fields "data" = None
          \/ exists d, lookup fields "data" = Some d /\ truthy d = false)) ->
  fetch_pages peer (S fuel) page programs w = (Ret programs, w1).
Proof.
  intros H Hstop. rewrite (fetch_pages_round _ _ _ _ _ _ H).
  destruct Hstop as [-> | (fields & -> & Hd)]; [reflexivity|].
  destruct (truthy (JObj fields)); [|reflexivity]. cbn [negb get].
  destruct Hd as [-> | (d & -> & Hd)]; rewrite MonadFacts.bind_lift_val.
  - reflexivity.
  - now rewrite Hd.
Qed.


(** The round on a body with truthy, iterable [data]: what decides is
    ['links' in data and 'next' in data['links']]. *)
Lemma fetch_pages_links (fuel : nat) (page : Z) (programs : list json)
    (w w1 : world) (fields : list (string * json)) (d : json)
    (items : list json) :
  make_api_request peer (ListPrograms page PAGE_SIZE) w = (Ret (JObj fields), w1) ->
  lookup fields "data" = Some d ->
  truthy d = true ->
  iter d = Val items ->
  fetch_pages peer (S fuel) page programs w
  = match lookup fields "links" with
    | None => (Ret (programs ++ items)%list, w1)
    | Some links =>
        match contains "next" links with
        | Val true =>
            fetch_pages peer fuel (page + 1) (programs ++ items)%list
              (sleep RATE_LIMIT_DELAY w1)
        | Val false => (Ret (programs ++ items)%list, w1)
        | Exc e => (Raise e, w1)
        end
    end.
Proof.
  intros H Hd Ht Hi. rewrite (fetch_pages_round _ _ _ _ _ _ H).
  assert (Hdata : truthy (JObj fields) = true).
  { destruct fields; [discriminate Hd | reflexivity]. }
  rewrite Hdata. cbn [negb get getitem]. rewrite Hd.
  rewrite MonadFacts.bind_lift_val, Ht. cbn [negb].
  rewrite MonadFacts.bind_lift_val, Hi, MonadFacts.bind_lift_val.
  change (contains "links" (JObj fields))
    with (Val (A := bool) (match lookup fields "links" with
                           | Some _ => true
                           | None => false
                           end)).
  rewrite MonadFacts.bind_lift_val.
  destruct (lookup fields "links") as [links|].
  - unfold bind, lift. destruct (contains "next" links) as [[|]|e]; reflexivity.
  - reflexivity.
Qed.

(** The round on a truthy body that is not an object, and on a [data]
    that cannot be iterated. *)
Lemma fetch_pages_not_object (fuel : nat) (page : Z) (programs : list json)
    (w w1 : world) (data : json) :
  make_api_request peer (ListPrograms page PAGE_SIZE) w = (Ret data, w1) ->
  truthy data = true ->
  (forall fields, data <> JObj fields) ->
  fetch_pages peer (S fuel) page programs w = (Raise AttributeError, w1).
Proof.
  intros H Ht Hshape. rewrite (fetch_pages_round _ _ _ _ _ _ H), Ht.
  cbn [negb]. destruct data as [| | | | |fields]; try reflexivity.
  now destruct (Hshape fields).
Qed.

Lemma fetch_pages_not_iterable (fuel : nat) (page : Z) (programs : list json)
    (w w1 : world) (fields : list (string * json)) (d : json) (e : exn) :
  make_api_request peer (ListPrograms page PAGE_SIZE) w = (Ret (JObj fields), w1) ->
  lookup fields "data" = Some d ->
  truthy d = true ->
  iter d = Exc e ->
  fetch_pages peer (S fuel) page programs w = (Raise e, w1).
Proof.
  intros H Hd Ht Hi. rewrite (fetch_pages_round _ _ _ _ _ _ H).
  assert (Hdata : truthy (JObj fields) = true).
  { destruct fields; [discriminate Hd | reflexivity]. }
  rewrite Hdata. cbn [negb get getitem]. rewrite Hd.
  rewrite MonadFacts.bind_lift_val, Ht. cbn [negb].
  now rewrite MonadFacts.bind_lift_val, Hi.
Qed.



End WithPeer.
End PaginatorFacts.

(** C6, as stated, fails: a first page whose [links] is the list
    [["next"]] has no [links.next] field, yet ['next' in data['links']]
    holds and the loop goes on to page 2; and a page whose [links] is
    [null] does not end the listing either: ['next' in None] raises
    [TypeError]. *)
Lemma C6_counterexample_links_without_next_field :
  getitem page_links_list "links" = Val (JArr [JStr "next"])
  /\ getitem (JArr [JStr "next"]) "next" = Exc TypeError
  /\ (fetch_all_programs peer_links_list 5 (fresh_world 0 ∅)).1
     = Ret (JArr (programs_from 0 137))
  /\ requests_of (fetch_all_programs peer_links_list 5 (fresh_world 0 ∅)).2
     = [Get (ListPrograms 2 PAGE_SIZE); Get (ListPrograms 1 PAGE_SIZE)]
  /\ getitem page_links_null "links" = Val JNull
  /\ (fetch_all_programs peer_links_null 5 (fresh_world 0 ∅)).1
     = Raise TypeError.
Proof. repeat split; vm_compute; reflexivity. Qed.

(** C6 (amended): a round of the listing loop stops with what has been
    accumulated when the client returns [None] or another falsy value
    or a body without (truthy) [data]; on a body with truthy [data] it
    adds the page and then stops when the body has no [links] key or
    ['next' in data['links']] is false, and goes on to the next page
    number, after the inter-page delay, when ['next' in data['links']]
    is true: a key of an object, an element of a list, a substring of
    a string.  The round raises, instead of stopping, on a truthy body
    that is not an object ([AttributeError]), on a [data] that cannot
    be iterated and on a [links] that is no container, such as [null]
    ([TypeError]).  Served 100 programs with a next link and then 37
    without, [fetch_all_programs] returns the 137 programs and has
    sent the two listing requests and no other. *)
Theorem C6_pagination_stop_conditions
    (peer : nat -> request -> reply) (fuel : nat) (page : Z)
    (programs : list json) (w w1 : world) (data : json) :
  make_api_request peer (ListPrograms page PAGE_SIZE) w = (Ret data, w1) ->
  (data = JNull
   \/ truthy data = false
   \/ (exists fields, data = JObj fields
       /\ (lookup fields "data" = None
           \/ exists d, lookup fields "data" = Some d /\ truthy d = false)) ->
   fetch_pages peer (S fuel) page programs w = (Ret programs, w1))
  /\ (truthy data = true ->
      (forall fields, data <> JObj fields) ->
      fetch_pages peer (S fuel) page programs w = (Raise AttributeError, w1))
  /\ (forall fields d,
        data = JObj fields ->
        lookup fields "data" = Some d ->
        truthy d = true ->
        (forall e, iter d = Exc e ->
           fetch_pages peer (S fuel) page programs w = (Raise e, w1))
        /\ (forall items, iter d = Val items ->
              (lookup fields "links" = None ->
               fetch_pages peer (S fuel) page programs w
               = (Ret (programs ++ items)%list, w1))
              /\ (forall links,
                    lookup fields "links" = Some links ->
                    (contains "next" links = Val false ->
                     fetch_pages peer (S fuel) page programs w
                     = (Ret (programs ++ items)%list, w1))
                    /\ (contains "next" links = Val true ->
                        fetch_pages peer (S fuel) page programs w
                        = fetch_pages peer fuel (page + 1)
                            (programs ++ items)%list
                            (sleep RATE_LIMIT_DELAY w1))
                    /\ (forall e, contains "next" links = Exc e ->
                          fetch_pages peer (S fuel) page programs w
                          = (Raise e, w1)))))
  /\ (forall links,
        (forall l, links = JObj l ->
           contains "next" links
           = Val (match lookup l "next" with Some _ => true | None => false end))
        /\ (forall l, links = JArr l ->
              contains "next" links
              = Val (existsb (fun item => eq_str item "next") l))
        /\ (forall t, links = JStr t ->
              contains "next" links = Val (PyStr.contains "next" t))
        /\ ((links = JNull \/ (exists b, links = JBool b)
             \/ (exists n, links = JNum n)) ->
            contains "next" links = Exc TypeError))
  /\ (forall fuel' t,
        exists w',
          fetch_all_programs peer_two_pages (S (S fuel')) (fresh_world t ∅)
          = (Ret (JArr (programs_from 0 100 ++ programs_from 100 37)%list), w')
          /\ length (programs_from 0 100 ++ programs_from 100 37)%list = 137%nat
          /\ requests_of w'
             = [Get (ListPrograms 2 PAGE_SIZE); Get (ListPrograms 1 PAGE_SIZE)]).
Proof.
  intros H. split; [|split; [|split; [|split]]].
  - intros Hstop. apply (PaginatorFacts.fetch_pages_no_data _ _ _ _ _ _ _ H).
    destruct Hstop as [-> | [Hf | Hobj]]; auto.
  - now apply PaginatorFacts.fetch_pages_not_object.
  - intros fields d -> Hd Ht. split.
    + intros e Hi.
      now apply (PaginatorFacts.fetch_pages_not_iterable _ _ _ _ _ _ fields d).
    + intros items Hi.
      pose proof (PaginatorFacts.fetch_pages_links peer fuel page programs
                    w w1 fields d items H Hd Ht Hi) as Hround.
      split.
      * intros Hnone. now rewrite Hnone in Hround.
      * intros links Hlinks. rewrite Hlinks in Hround.
        repeat split.
        -- intros Hc. now rewrite Hc in Hround.
        -- intros Hc. now rewrite Hc in Hround.
        -- intros e Hc. now rewrite Hc in Hround.
  - intros links. repeat split.
    + now intros l ->.
    + now intros l ->.
    + now intros t ->.
    + intros [-> | [[b ->] | [n ->]]]; reflexivity.
  - intros fuel' t. eexists. split; [reflexivity|]. split; reflexivity.
Qed.

Lemma C6_witness :
  (page_one = JNull
   \/ truthy page_one = false
   \/ (exists fields, page_one = JObj fields
       /\ (lookup fields "data" = None
           \/ exists d, lookup fields "data" = Some d /\ truthy d = false)) ->
   fetch_pages peer_two_pages 2 1 [] (fresh_world 0 ∅)
   = (Ret [], (make_api_request peer_two_pages (ListPrograms 1 PAGE_SIZE)
                 (fresh_world 0 ∅)).2))
  /\ (truthy page_one = true ->
      (forall fields, page_one <> JObj fields) ->
      fetch_pages peer_two_pages 2 1 [] (fresh_world 0 ∅)
      = (Raise AttributeError,
         (make_api_request peer_two_pages (ListPrograms 1 PAGE_SIZE)
            (fresh_world 0 ∅)).2))
  /\ (forall fields d,
        page_one = JObj fields ->
        lookup fields "data" = Some d ->
        truthy d = true ->
        (forall e, iter d = Exc e ->
           fetch_pages peer_two_pages 2 1 [] (fresh_world 0 ∅)
           = (Raise e,
              (make_api_request peer_two_pages (ListPrograms 1 PAGE_SIZE)
                 (fresh_world 0 ∅)).2))
        /\ (forall items, iter d = Val items ->
              (lookup fields "links" = None ->
               fetch_pages peer_two_pages 2 1 [] (fresh_world 0 ∅)
               = (Ret ([] ++ items)%list,
                  (make_api_request peer_two_pages (ListPrograms 1 PAGE_SIZE)
                     (fresh_world 0 ∅)).2))
              /\ (forall links,
                    lookup fields "links" = Some links ->
                    (contains "next" links = Val false ->
                     fetch_pages peer_two_pages 2 1 [] (fresh_world 0 ∅)
                     = (Ret ([] ++ items)%list,
                        (make_api_request peer_two_pages
                           (ListPrograms 1 PAGE_SIZE) (fresh_world 0 ∅)).2))
                    /\ (contains "next" links = Val true ->
                        fetch_pages peer_two_pages 2 1 [] (fresh_world 0 ∅)
                        = fetch_pages peer_two_pages 1 (1 + 1)
                            ([] ++ items)%list
                            (sleep RATE_LIMIT_DELAY
                               (make_api_request peer_two_pages
                                  (ListPrograms 1 PAGE_SIZE)
                                  (fresh_world 0 ∅)).2))
                    /\ (forall e, contains "next" links = Exc e ->
                          fetch_pages peer_two_pages 2 1 [] (fresh_world 0 ∅)
                          = (Raise e,
                             (make_api_request peer_two_pages
                                (ListPrograms 1 PAGE_SIZE)
                                (fresh_world 0 ∅)).2)))))
  /\ (forall links,
        (forall l, links = JObj l ->
           contains "next" links
           = Val (match lookup l "next" with Some _ => true | None => false end))
        /\ (forall l, links = JArr l ->
              contains "next" links
              = Val (existsb (fun item => eq_str item "next") l))
        /\ (forall t, links = JStr t ->
              contains "next" links = Val (PyStr.contains "next" t))
        /\ ((links = JNull \/ (exists b, links = JBool b)
             \/ (exists n, links = JNum n)) ->
            contains "next" links = Exc TypeError))
  /\ (forall fuel' t,
        exists w',
          fetch_all_programs peer_two_pages (S (S fuel')) (fresh_world t ∅)
          = (Ret (JArr (programs_from 0 100 ++ programs_from 100 37)%list), w')
          /\ length (programs_from 0 100 ++ programs_from 100 37)%list = 137%nat
          /\ requests_of w'
             = [Get (ListPrograms 2 PAGE_SIZE); Get (ListPrograms 1 PAGE_SIZE)]).
Proof.
  apply (C6_pagination_stop_conditions peer_two_pages 1 1 [] (fresh_world 0 ∅)
           (make_api_request peer_two_pages (ListPrograms 1 PAGE_SIZE)
              (fresh_world 0 ∅)).2 page_one).
  reflexivity.
Defined.

(** The two-page listing, round by round. *)
Example two_pages_log :
  log (fetch_all_programs peer_two_pages 2 (fresh_world 0 ∅)).2
  = [Release; Get (ListPrograms 2 100); Acquire; Sleep 100000;
     Release; Get (ListPrograms 1 100); Acquire].
Proof. reflexivity. Qed.




(** The peer is down on the first run; a day later the peer is up, and
    the empty list is served from the cache. *)
Example empty_listing_served_from_cache :
  let first_run := fetch_all_programs peer_down 1 (fresh_world 0 ∅) in
  let later := fresh_world usec_per_day (files first_run.2) in
  first_run.1 = Ret (JArr [])
  /\ requests_of first_run.2 = repeat (Get (ListPrograms 1 100)) 3
  /\ fetch_all_programs peer_two_pages 5 later = (Ret (JArr []), later).
Proof. repeat split; vm_compute; reflexivity. Qed.

(** * Further properties of the script *)

(** ** Splitting at one character *)
Module SplitFacts.
Import PyStr PyStrFacts.

Lemma pieces_nonempty (c : ascii) (s : string) : pieces c s <> [].
Proof.
  induction s as [|a s IH]; cbn [pieces]; [discriminate|].
  destruct (Ascii.eqb c a); [discriminate|].
  destruct (pieces c s); discriminate.
Qed.

Lemma split_from_pieces (c : ascii) (acc s : string) :
  split_from (String c "") 0 acc s
  = match pieces c s with
    | p :: ps => (rev_acc "" acc +:+ p) :: ps
    | [] => []
    end.
Proof.
  revert acc. induction s as [|a s IH]; intros acc.
  - cbn [split_from pieces]. now rewrite app_nil_r.
  - cbn [split_from pieces]. rewrite prefix_char.
    destruct (Ascii.eqb c a).
    + rewrite app_nil_r. cbn [String.length Nat.pred]. rewrite IH.
      cbn [rev_acc]. f_equal.
      pose proof (pieces_nonempty c s). destruct (pieces c s); [congruence|].
      reflexivity.
    + rewrite IH. pose proof (pieces_nonempty c s).
      destruct (pieces c s) as [|p ps]; [congruence|].
      cbn [rev_acc]. rewrite (rev_acc_app (String a "")), app_assoc.
      reflexivity.
Qed.

(** [s.split(c)] for a one-character separator. *)
Lemma split_char (c : ascii) (s : string) :
  split s (String c "") = pieces c s.
Proof.
  unfold split. rewrite split_from_pieces.
  pose proof (pieces_nonempty c s). now destruct (pieces c s).
Qed.

Lemma pieces_app (c : ascii) (p s : string) :
  contains (String c "") p = false ->
  pieces c (p +:+ String c s) = p :: pieces c s.
Proof.
  rewrite contains_char. induction p as [|a p IH]; cbn [all_chars]; intros H.
  - rewrite app_nil_l. cbn [pieces]. now rewrite Ascii.eqb_refl.
  - rewrite app_cons. cbn [pieces].
    destruct (Ascii.eqb c a); [discriminate H|]. cbn [negb andb] in H.
    now rewrite IH.
Qed.

Lemma pieces_no_sep (c : ascii) (s : string) :
  contains (String c "") s = false -> pieces c s = [s].
Proof.
  rewrite contains_char. induction s as [|a s IH]; cbn [all_chars pieces]; intros H.
  - reflexivity.
  - destruct (Ascii.eqb c a); [discriminate H|]. cbn [negb andb] in H.
    now rewrite IH.
Qed.

Lemma pieces_all_chars (P : ascii -> bool) (c : ascii) (s : string) :
  all_chars P s = true -> Forall (fun p => all_chars P p = true) (pieces c s).
Proof.
  induction s as [|a s IH]; cbn [all_chars pieces]; intros H.
  - now constructor.
  - apply andb_true_iff in H as [Ha Hs]. specialize (IH Hs).
    destruct (Ascii.eqb c a); [now constructor|].
    destruct (pieces c s) as [|p ps].
    + repeat constructor. cbn [all_chars]. now rewrite Ha.
    + inversion IH; subst. constructor; [|assumption].
      cbn [all_chars]. now rewrite Ha.
Qed.

(** No piece holds the separator. *)
Lemma pieces_free (c : ascii) (s : string) :
  Forall (fun p => contains (String c "") p = false) (pieces c s).
Proof.
  induction s as [|a s IH]; cbn [pieces].
  - now constructor.
  - destruct (Ascii.eqb c a) eqn:E; [now constructor|].
    destruct (pieces c s) as [|p ps].
    + repeat constructor. cbn [contains]. rewrite prefix_char, E. reflexivity.
    + inversion IH; subst. constructor; [|assumption].
      cbn [contains]. now rewrite prefix_char, E.
Qed.

Lemma join_pieces (c : ascii) (s : string) :
  join (String c "") (pieces c s) = s.
Proof.
  induction s as [|a s IH]; cbn [pieces]; [reflexivity|].
  pose proof (pieces_nonempty c s) as Hne.
  destruct (Ascii.eqb_spec c a) as [<-|_].
  - destruct (pieces c s) as [|p ps]; [congruence|].
    change (join (String c "") ("" :: p :: ps))
      with ("" +:+ String c "" +:+ join (String c "") (p :: ps)).
    now rewrite IH.
  - destruct (pieces c s) as [|p [|q ps]]; [congruence| |].
    + cbn [join] in *. now rewrite IH.
    + change (join (String c "") (String a p :: q :: ps))
        with (String a p +:+ String c "" +:+ join (String c "") (q :: ps)).
      change (join (String c "") (p :: q :: ps))
        with (p +:+ String c "" +:+ join (String c "") (q :: ps)) in IH.
      now rewrite app_cons, IH.
Qed.

Lemma pieces_join (c : ascii) (l : list string) :
  l <> [] ->
  Forall (fun p => contains (String c "") p = false) l ->
  pieces c (join (String c "") l) = l.
Proof.
  intros Hne Hall. induction Hall as [|p ps Hp Hps IH]; [congruence|].
  destruct ps as [|q ps].
  - cbn [join]. now apply pieces_no_sep.
  - change (join (String c "") (p :: q :: ps))
      with (p +:+ String c "" +:+ join (String c "") (q :: ps)).
    change (String c "" +:+ join (String c "") (q :: ps))
      with (String c (join (String c "") (q :: ps))).
    rewrite pieces_app by exact Hp. f_equal. now apply IH.
Qed.

End SplitFacts.

(** ** More on the classifier *)
Module ClassifierShapes.
Import PyStr PyStrFacts SplitFacts.

Lemma prefix_true (p s : string) :
  String.prefix p s = true -> exists r, s = p +:+ r.
Proof.
  revert s. induction p as [|c p IH]; intros s H.
  - now exists s.
  - destruct s as [|a s]; [discriminate H|]. cbn [String.prefix] in H.
    destruct (ascii_dec c a) as [<-|_]; [|discriminate H].
    destruct (IH s H) as [r ->]. now exists r.
Qed.

Lemma contains_head (c : ascii) (s : string) :
  contains (String c "") (String c s) = true.
Proof. cbn [contains]. now rewrite prefix_char, Ascii.eqb_refl. Qed.

Lemma before_app (c : ascii) (d rest : string) :
  contains (String c "") d = false -> before c (d +:+ String c rest) = d.
Proof.
  rewrite contains_char. induction d as [|a d IH]; cbn [all_chars]; intros H.
  - rewrite app_nil_l. cbn [before]. now rewrite Ascii.eqb_refl.
  - rewrite app_cons. cbn [before].
    destruct (Ascii.eqb c a); [discriminate H|]. cbn [negb andb] in H.
    now rewrite IH.
Qed.

(** Two ways of cutting a string at a first [c] agree. *)
Lemma first_cut_unique (c : ascii) (l l' x y : string) :
  contains (String c "") l = false ->
  contains (String c "") l' = false ->
  l +:+ String c x = l' +:+ String c y ->
  l = l' /\ x = y.
Proof.
  intros Hl Hl' E.
  assert (B : before c (l +:+ String c x) = before c (l' +:+ String c y))
    by now rewrite E.
  rewrite !before_app in B by assumption. subst l'.
  split; [reflexivity|].
  apply String.app_inj in E. now injection E.
Qed.

Lemma last_Forall {A} (P : A -> Prop) (d : A) (l : list A) :
  l <> [] -> Forall P l -> P (List.last l d).
Proof.
  intros Hne H. induction H as [|x l Hx Hl IH]; [congruence|].
  destruct l as [|y l]; [exact Hx|].
  change (List.last (x :: y :: l) d) with (List.last (y :: l) d).
  now apply IH.
Qed.

(** The pattern of line 108 needs a [*]. *)
Lemma no_star_no_match (s : string) :
  contains "*" s = false -> Re.re_match wildcard_tld_pattern s = false.
Proof.
  intros H. destruct (Re.re_match wildcard_tld_pattern s) eqn:E; [|reflexivity].
  apply ClassifierFacts.wildcard_tld_match in E as (l & m & r & -> & _).
  change ("*." +:+ l +:+ "." +:+ m +:+ "*" +:+ r)
    with (String "*" ("." +:+ l +:+ "." +:+ m +:+ "*" +:+ r)) in H.
  now rewrite contains_head in H.
Qed.

(** The pattern of line 108 needs a leading [*.]. *)
Lemma no_lead_no_match (s : string) :
  startswith s "*." = false -> Re.re_match wildcard_tld_pattern s = false.
Proof.
  intros H. destruct (Re.re_match wildcard_tld_pattern s) eqn:E; [|reflexivity].
  apply ClassifierFacts.wildcard_tld_match in E as (l & m & r & -> & _).
  unfold startswith in H. now rewrite prefix_app in H.
Qed.

End ClassifierShapes.

(** [categorize_domain] answers [standard] exactly for the strings that
    hold a dot and have no [*] before their first colon. *)
Theorem categorize_standard_iff (domain : string) :
  categorize_domain domain = Some standard <->
  PyStr.contains "." domain = true
  /\ PyStr.contains "*" (clean_domain_of domain) = false.
Proof.
  unfold categorize_domain.
  destruct (String.eqb_spec domain "") as [->|Hne]; cbn [orb].
  { split; [discriminate | now intros [H _]]. }
  destruct (PyStr.contains "." domain); cbn [negb];
    [|split; [discriminate | now intros [H _]]].
  destruct (PyStr.contains "*" (clean_domain_of domain)) eqn:Hstar.
  - split; [|now intros [_ H]].
    destruct (Re.re_match _ _); [discriminate|].
    destruct (PyStr.startswith _ _); [destruct (_ && _)|]; discriminate.
  - rewrite (ClassifierShapes.no_star_no_match _ Hstar).
    destruct (PyStr.startswith (clean_domain_of domain) "*.") eqn:Hlead.
    + apply ClassifierShapes.prefix_true in Hlead as [r Hr].
      rewrite Hr in Hstar.
      change ("*." +:+ r) with (String "*" ("." +:+ r)) in Hstar.
      now rewrite ClassifierShapes.contains_head in Hstar.
    + now split.
Qed.

(** A port does not change the category of a name that holds a dot:
    what follows the first colon is not looked at. *)
Theorem categorize_ignores_port (domain port : string) :
  PyStr.contains ":" domain = false ->
  PyStr.contains "." domain = true ->
  categorize_domain (domain +:+ ":" +:+ port) = categorize_domain domain.
Proof.
  intros Hcolon Hdot. unfold categorize_domain.
  assert (E1 : clean_domain_of (domain +:+ ":" +:+ port) = domain).
  { rewrite ClassifierFacts.clean_domain_before.
    now apply ClassifierShapes.before_app. }
  assert (E2 : clean_domain_of domain = domain).
  { rewrite ClassifierFacts.clean_domain_before.
    now apply PyStrFacts.before_no_sep. }
  rewrite E1, E2, PyStrFacts.contains_char_app, Hdot. cbn [orb negb].
  destruct domain as [|a d]; [discriminate Hdot|].
  reflexivity.
Qed.

Lemma categorize_ignores_port_witness :
  categorize_domain ("example.com" +:+ ":" +:+ "8443")
  = categorize_domain "example.com".
Proof.
  apply (categorize_ignores_port "example.com" "8443"); reflexivity.
Defined.

(** A leading [*.] followed by a dot-free label, a dot and a rest
    without [*] is a simple wildcard; the label itself may hold a [*]. *)
Theorem categorize_simple_wildcard (l t : string) :
  l <> "" ->
  PyStr.contains "." l = false ->
  PyStr.contains ":" l = false ->
  PyStr.contains ":" t = false ->
  PyStr.contains "*" t = false ->
  categorize_domain ("*." +:+ l +:+ "." +:+ t) = Some simple_wildcard.
Proof.
  intros Hl Hdot Hcl Hct Hstar.
  set (d := "*." +:+ l +:+ "." +:+ t).
  assert (Hcolon : PyStr.contains ":" d = false).
  { unfold d. rewrite !PyStrFacts.contains_char_app, Hcl, Hct. reflexivity. }
  assert (Hclean : clean_domain_of d = d).
  { rewrite ClassifierFacts.clean_domain_before.
    now apply PyStrFacts.before_no_sep. }
  assert (Hhas : PyStr.contains "." d = true).
  { unfold d. rewrite !PyStrFacts.contains_char_app. reflexivity. }
  assert (Hre : Re.re_match wildcard_tld_pattern d = false).
  { destruct (Re.re_match wildcard_tld_pattern d) eqn:E; [|reflexivity].
    apply ClassifierFacts.wildcard_tld_match in E
      as (l' & m & r & E & _ & Hdot' & _).
    unfold d in E. apply String.app_inj in E.
    change ("." +:+ t) with (String "." t) in E.
    change ("." +:+ m +:+ "*" +:+ r) with (String "." (m +:+ "*" +:+ r)) in E.
    apply ClassifierShapes.first_cut_unique in E as [_ ->]; [|assumption..].
    rewrite !PyStrFacts.contains_char_app in Hstar.
    change (PyStr.contains "*" "*") with true in Hstar.
    now rewrite orb_true_r in Hstar. }
  assert (Hparts : PyStr.split d "." = "*" :: l :: pieces "." t).
  { rewrite SplitFacts.split_char. unfold d.
    change ("*." +:+ l +:+ "." +:+ t) with ("*" +:+ String "." (l +:+ String "." t)).
    rewrite SplitFacts.pieces_app by reflexivity.
    now rewrite SplitFacts.pieces_app by assumption. }
  assert (Hlast : PyStr.contains "*" (PyStr.last (PyStr.split d ".")) = false).
  { rewrite Hparts. unfold PyStr.last.
    pose proof (SplitFacts.pieces_nonempty "." t) as Hne.
    destruct (pieces "." t) as [|p ps] eqn:Ep; [congruence|].
    change (List.last ("*" :: l :: p :: ps) "") with (List.last (p :: ps) "").
    rewrite <- Ep.
    apply (ClassifierShapes.last_Forall
             (fun p => PyStr.contains "*" p = false)).
    - now rewrite Ep.
    - rewrite PyStrFacts.contains_char in Hstar.
      apply negb_false_iff in Hstar.
      pose proof (SplitFacts.pieces_all_chars _ "." t Hstar) as F.
      eapply Forall_impl; [exact F|].
      intros q Hq. cbn beta in Hq. now rewrite PyStrFacts.contains_char, Hq. }
  assert (Hlen : (3 <=? length (PyStr.split d "."))%nat = true).
  { rewrite Hparts. pose proof (SplitFacts.pieces_nonempty "." t).
    destruct (pieces "." t); [congruence | reflexivity]. }
  unfold categorize_domain. fold d. rewrite Hhas, Hclean, Hre, Hlast, Hlen.
  unfold PyStr.startswith, d. rewrite PyStrFacts.prefix_app. reflexivity.
Qed.

Lemma categorize_simple_wildcard_witness :
  categorize_domain ("*." +:+ "a*" +:+ "." +:+ "example.com")
  = Some simple_wildcard.
Proof.
  apply (categorize_simple_wildcard "a*" "example.com");
    [discriminate | reflexivity..].
Defined.

(** A name with a [*] before its first colon that does not start with
    [*.] gets no category. *)
Theorem categorize_stray_wildcard (domain : string) :
  PyStr.contains "*" (clean_domain_of domain) = true ->
  PyStr.startswith (clean_domain_of domain) "*." = false ->
  categorize_domain domain = None.
Proof.
  intros Hstar Hlead. unfold categorize_domain.
  destruct (_ || _); [reflexivity|].
  now rewrite (ClassifierShapes.no_lead_no_match _ Hlead), Hlead, Hstar.
Qed.

Lemma categorize_stray_wildcard_witness :
  categorize_domain "api.*.example.com" = None.
Proof.
  apply (categorize_stray_wildcard "api.*.example.com"); reflexivity.
Defined.

(** ** The host taken from an asset identifier (line 134) *)
Module UrlFacts.
Import PyStr PyStrFacts.

Lemma lower_char_slash (c : ascii) :
  Ascii.eqb "/" (lower_char c) = Ascii.eqb "/" c.
Proof. destruct c as [[] [] [] [] [] [] [] []]; reflexivity. Qed.

Lemma lower_char_idem (c : ascii) : lower_char (lower_char c) = lower_char c.
Proof. destruct c as [[] [] [] [] [] [] [] []]; reflexivity. Qed.

Lemma before_free (c : ascii) (s : string) :
  all_chars (fun x => negb (Ascii.eqb c x)) (before c s) = true.
Proof.
  induction s as [|a s IH]; cbn [before]; [reflexivity|].
  destruct (Ascii.eqb c a) eqn:E; [reflexivity|].
  cbn [all_chars]. now rewrite E, IH.
Qed.

Lemma all_chars_lstrip (P : ascii -> bool) (s : string) :
  all_chars P s = true -> all_chars P (lstrip s) = true.
Proof.
  induction s as [|a s IH]; cbn [lstrip all_chars]; [auto|].
  intros H. destruct (is_space a); [|exact H].
  apply andb_true_iff in H as [_ H]. auto.
Qed.

Lemma all_chars_rstrip (P : ascii -> bool) (s : string) :
  all_chars P s = true -> all_chars P (rstrip s) = true.
Proof.
  induction s as [|a s IH]; cbn [rstrip all_chars]; [auto|].
  intros H. apply andb_true_iff in H as [Ha Hs]. specialize (IH Hs).
  destruct (rstrip s) as [|b t].
  - destruct (is_space a); [reflexivity|]. cbn [all_chars]. now rewrite Ha.
  - cbn [all_chars] in *. now rewrite Ha, IH.
Qed.

Lemma all_chars_strip (P : ascii -> bool) (s : string) :
  all_chars P s = true -> all_chars P (strip s) = true.
Proof. intros H. now apply all_chars_rstrip, all_chars_lstrip. Qed.

Lemma lower_fixed (s : string) :
  all_chars (fun c => Ascii.eqb (lower_char c) c) (lower s) = true.
Proof.
  induction s as [|a s IH]; cbn [lower all_chars]; [reflexivity|].
  now rewrite lower_char_idem, Ascii.eqb_refl, IH.
Qed.

Lemma fixed_lower (s : string) :
  all_chars (fun c => Ascii.eqb (lower_char c) c) s = true -> lower s = s.
Proof.
  induction s as [|a s IH]; cbn [lower all_chars]; [reflexivity|].
  intros H. apply andb_true_iff in H as [Ha Hs].
  apply Ascii.eqb_eq in Ha. now rewrite Ha, IH.
Qed.

Lemma all_chars_lower_slash (s : string) :
  all_chars (fun x => negb (Ascii.eqb "/" x)) s = true ->
  all_chars (fun x => negb (Ascii.eqb "/" x)) (lower s) = true.
Proof.
  induction s as [|a s IH]; cbn [lower all_chars]; [reflexivity|].
  intros H. apply andb_true_iff in H as [Ha Hs].
  now rewrite lower_char_slash, Ha, IH.
Qed.

Lemma rstrip_idem (s : string) : rstrip (rstrip s) = rstrip s.
Proof.
  induction s as [|a s IH]; cbn [rstrip]; [reflexivity|].
  destruct (rstrip s) as [|b t] eqn:E.
  - destruct (is_space a) eqn:Ea; [reflexivity|].
    cbn [rstrip]. now rewrite Ea.
  - cbn [rstrip]. cbn [rstrip] in IH. rewrite IH. reflexivity.
Qed.

Lemma lstrip_head (s : string) :
  lstrip s = "" \/ exists c r, lstrip s = String c r /\ is_space c = false.
Proof.
  induction s as [|a s IH]; cbn [lstrip]; [now left|].
  destruct (is_space a) eqn:E; [exact IH|]. right. eauto.
Qed.

Lemma lstrip_rstrip_head (c : ascii) (r : string) :
  is_space c = false -> lstrip (rstrip (String c r)) = rstrip (String c r).
Proof.
  intros E. cbn [rstrip]. destruct (rstrip r); rewrite ?E; cbn [lstrip];
    now rewrite E.
Qed.

Lemma strip_idem (s : string) : strip (strip s) = strip s.
Proof.
  unfold strip. destruct (lstrip_head s) as [-> | (c & r & -> & E)].
  - reflexivity.
  - now rewrite lstrip_rstrip_head, rstrip_idem.
Qed.

(** The normal form of [x.split('/')[0].lower().strip()]. *)
Lemma host_normal (x : string) :
  let d := strip (lower (before "/" x)) in
  contains "/" d = false /\ lower d = d /\ strip d = d.
Proof.
  cbn zeta. split; [|split].
  - apply ClassifierFacts.all_chars_not.
    apply all_chars_strip, all_chars_lower_slash, before_free.
  - apply fixed_lower, all_chars_strip, lower_fixed.
  - apply strip_idem.
Qed.

End UrlFacts.

(** The host taken from an identifier that is a string holds no [/],
    is in lower case and has no white space at either end. *)
Theorem domain_of_url_normal_form (url : string) :
  exists d,
    domain_of_url (JStr url) = Val d
    /\ PyStr.contains "/" d = false
    /\ PyStr.lower d = d
    /\ PyStr.strip d = d.
Proof.
  unfold domain_of_url. cbn [split and_then].
  eexists. split; [reflexivity|].
  rewrite PyStrFacts.split_first.
  apply UrlFacts.host_normal.
Qed.

(** ** What the result sets hold *)
Module SetFacts.

Lemma set_of_add (c c' : category) (d : string) (sets : domain_sets) :
  set_of c' (add_domain c d sets)
  = if decide (c = c') then {[d]} ∪ set_of c' sets else set_of c' sets.
Proof. destruct c, c'; reflexivity. Qed.

Lemma set_of_merge (c : category) (a b : domain_sets) :
  set_of c (merge a b) = set_of c a ∪ set_of c b.
Proof. destruct c; reflexivity. Qed.

Lemma set_of_empty (c : category) : set_of c empty_sets = ∅.
Proof. destruct c; reflexivity. Qed.

Lemma well_formed_empty : well_formed empty_sets.
Proof. intros c d H. rewrite set_of_empty in H. now apply elem_of_empty in H. Qed.

Lemma well_formed_add (c : category) (url : string) (d : string)
    (sets : domain_sets) :
  well_formed sets ->
  domain_of_url (JStr url) = Val d ->
  categorize_domain d = Some c ->
  well_formed (add_domain c d sets).
Proof.
  intros Hwf Hurl Hcat c' d' Hin. rewrite set_of_add in Hin.
  destruct (decide (c = c')) as [<-|_]; [|now apply Hwf].
  apply elem_of_union in Hin as [Hin|Hin]; [|now apply Hwf].
  apply elem_of_singleton in Hin as ->.
  unfold domain_of_url in Hurl. cbn [split and_then] in Hurl.
  injection Hurl as <-. rewrite PyStrFacts.split_first in *.
  split; [exact Hcat | apply UrlFacts.host_normal].
Qed.

Lemma well_formed_merge (a b : domain_sets) :
  well_formed a -> well_formed b -> well_formed (merge a b).
Proof.
  intros Ha Hb c d Hin. rewrite set_of_merge in Hin.
  apply elem_of_union in Hin as [Hin|Hin]; auto.
Qed.

Lemma scan_scope_well_formed (scope : json) (domains domains' : domain_sets) :
  well_formed domains ->
  scan_scope scope domains = Val domains' ->
  well_formed domains'.
Proof.
  intros Hwf. unfold scan_scope.
  destruct (get scope "attributes" (JObj [])) as [attributes|e];
    cbn [and_then]; [|discriminate].
  destruct (get attributes "asset_type" JNull) as [asset_type|e];
    cbn [and_then]; [|discriminate].
  destruct (eq_str asset_type "URL"); [|now intros [= <-]].
  destruct (getitem scope "attributes") as [attributes'|e];
    cbn [and_then]; [|discriminate].
  destruct (getitem attributes' "asset_identifier") as [url|e];
    cbn [and_then]; [|discriminate].
  destruct url as [| | |url| |]; try discriminate.
  destruct (domain_of_url (JStr url)) as [domain|e] eqn:Hurl;
    cbn [and_then]; [|discriminate].
  destruct (negb (String.eqb domain "")); [|now intros [= <-]].
  destruct (categorize_domain domain) as [c|] eqn:Hcat; intros [= <-]; [|exact Hwf].
  now apply (well_formed_add c url).
Qed.

Lemma scan_scopes_well_formed (scopes : list json)
    (domains domains' : domain_sets) :
  well_formed domains ->
  scan_scopes scopes domains = Val domains' ->
  well_formed domains'.
Proof.
  revert domains. induction scopes as [|scope rest IH]; intros domains Hwf;
    cbn [scan_scopes].
  - now intros [= <-].
  - destruct (scan_scope scope domains) as [d1|e] eqn:E; cbn [and_then];
      [|discriminate].
    apply IH. now apply (scan_scope_well_formed scope domains).
Qed.

Lemma collect_domains_well_formed (data : json) (w w' : world)
    (sets : domain_sets) :
  collect_domains data w = (Ret sets, w') -> well_formed sets /\ w' = w.
Proof.
  unfold collect_domains, bind, lift, ret.
  destruct (truthy data); [|intros [= <- <-]; split; [apply well_formed_empty | reflexivity]].
  destruct (get data "data" JNull) as [d|e]; [|discriminate].
  destruct (truthy d); [|intros [= <- <-]; split; [apply well_formed_empty | reflexivity]].
  destruct (getitem data "data") as [scope_data|e]; [|discriminate].
  destruct (iter scope_data) as [scopes|e]; [|discriminate].
  destruct (scan_scopes scopes empty_sets) as [s1|e] eqn:E; [|discriminate].
  intros [= <- <-]. split; [|reflexivity].
  apply (scan_scopes_well_formed scopes empty_sets); [apply well_formed_empty | exact E].
Qed.

(** A name has one category, so well-formed sets do not overlap. *)
Lemma well_formed_disjoint (sets : domain_sets) (c c' : category) :
  well_formed sets -> c <> c' -> set_of c sets ## set_of c' sets.
Proof.
  intros Hwf Hne. apply elem_of_disjoint. intros d H1 H2.
  apply Hwf in H1 as [H1 _]. apply Hwf in H2 as [H2 _]. congruence.
Qed.

Lemma fold_merge_member (c : category) (d : string)
    (results : list domain_sets) (acc : domain_sets) :
  d ∈ set_of c (fold_left merge results acc)
  <-> d ∈ set_of c acc \/ exists r, r ∈ results /\ d ∈ set_of c r.
Proof.
  revert acc. induction results as [|r rest IH]; intros acc; cbn [fold_left].
  - split; [now left|]. intros [H|(r & Hr & _)]; [exact H|].
    now apply elem_of_nil in Hr.
  - rewrite IH, set_of_merge, elem_of_union. split.
    + intros [[H|H]|(r' & Hr' & H)].
      * now left.
      * right. exists r. split; [apply elem_of_cons; now left | exact H].
      * right. exists r'. split; [apply elem_of_cons; now right | exact H].
    + intros [H|(r' & Hr' & H)].
      * now left; left.
      * apply elem_of_cons in Hr' as [->|Hr'].
        -- now left; right.
        -- right. eauto.
Qed.

End SetFacts.

(** Whatever the extractor returns is well formed: each stored name is
    in the set of its own category, so it is not empty and holds a dot,
    it holds no [/], it is in lower case and trimmed; and no name is in
    two of the three sets. *)
Theorem extractor_sets_well_formed
    (peer : nat -> request -> reply) (program : json) (w w' : world)
    (sets : domain_sets) :
  extract_domains_from_program peer program w = (Ret sets, w') ->
  well_formed sets
  /\ (forall c d, d ∈ set_of c sets -> d <> "" /\ PyStr.contains "." d = true)
  /\ standard_set sets ## simple_wildcard_set sets
  /\ standard_set sets ## wildcard_tld_set sets
  /\ simple_wildcard_set sets ## wildcard_tld_set sets.
Proof.
  intros H.
  assert (Hwf : well_formed sets).
  { unfold extract_domains_from_program, bind, lift in H.
    destruct (handle_of program) as [handle|e]; [|discriminate].
    destruct (negb (truthy handle)).
    - injection H as <- _. apply SetFacts.well_formed_empty.
    - destruct (make_api_request peer (ListScopes handle PAGE_SIZE) w)
        as [[data|e| |] w1]; try discriminate.
      now apply SetFacts.collect_domains_well_formed in H as [H _]. }
  split; [exact Hwf|]. split; [|repeat split].
  - intros c d Hin. apply Hwf in Hin as [Hcat _].
    destruct d as [|a d]; [discriminate Hcat|].
    split; [discriminate|]. unfold categorize_domain in Hcat.
    cbn [String.eqb orb] in Hcat.
    now destruct (PyStr.contains "." (String a d)).
  - now apply (SetFacts.well_formed_disjoint sets standard simple_wildcard).
  - now apply (SetFacts.well_formed_disjoint sets standard wildcard_tld).
  - now apply (SetFacts.well_formed_disjoint sets simple_wildcard wildcard_tld).
Qed.

Lemma extractor_sets_well_formed_witness :
  well_formed (add_domain standard "foo.example.com:443" empty_sets)
  /\ (forall c d,
        d ∈ set_of c (add_domain standard "foo.example.com:443" empty_sets) ->
        d <> "" /\ PyStr.contains "." d = true)
  /\ standard_set (add_domain standard "foo.example.com:443" empty_sets)
     ## simple_wildcard_set (add_domain standard "foo.example.com:443" empty_sets)
  /\ standard_set (add_domain standard "foo.example.com:443" empty_sets)
     ## wildcard_tld_set (add_domain standard "foo.example.com:443" empty_sets)
  /\ simple_wildcard_set (add_domain standard "foo.example.com:443" empty_sets)
     ## wildcard_tld_set (add_domain standard "foo.example.com:443" empty_sets).
Proof.
  apply (extractor_sets_well_formed peer_foo (program_with_handle (JStr "acme"))
           (fresh_world 0 ∅)
           (release (record (Get (ListScopes (JStr "acme") PAGE_SIZE))
                       (acquire (fresh_world 0 ∅))))).
  reflexivity.
Defined.

(** The final sets are the unions of the per-program sets, category by
    category. *)
Theorem aggregate_is_union (completed : list domain_sets) (c : category)
    (d : string) :
  d ∈ set_of c (aggregate completed)
  <-> exists r, r ∈ completed /\ d ∈ set_of c r.
Proof.
  unfold aggregate. rewrite SetFacts.fold_merge_member.
  rewrite SetFacts.set_of_empty. split; [|eauto].
  intros [H|H]; [now apply elem_of_empty in H | exact H].
Qed.

(** When every per-program result is well formed, so are the final
    sets, and no name is in two of them. *)
Theorem aggregate_well_formed (completed : list domain_sets) :
  Forall well_formed completed ->
  well_formed (aggregate completed)
  /\ forall c c', c <> c' ->
       set_of c (aggregate completed) ## set_of c' (aggregate completed).
Proof.
  intros Hall.
  assert (Hwf : well_formed (aggregate completed)).
  { intros c d Hin. unfold aggregate in Hin.
    apply SetFacts.fold_merge_member in Hin as [Hin|(r & Hr & Hin)].
    - rewrite SetFacts.set_of_empty in Hin. now apply elem_of_empty in Hin.
    - rewrite Forall_forall in Hall. now apply (Hall r Hr). }
  split; [exact Hwf|]. intros c c' Hne.
  now apply SetFacts.well_formed_disjoint.
Qed.

Lemma aggregate_well_formed_witness :
  well_formed (aggregate [sets_a; empty_sets])
  /\ forall c c', c <> c' ->
       set_of c (aggregate [sets_a; empty_sets])
       ## set_of c' (aggregate [sets_a; empty_sets]).
Proof.
  apply (aggregate_well_formed [sets_a; empty_sets]).
  constructor; [|constructor; [|constructor]]; intros c d H; destruct c;
    cbn in H;
    rewrite ?elem_of_union, ?elem_of_singleton, ?elem_of_empty in H;
    intuition; subst; vm_compute; auto.
Defined.

(** ** More on the client *)
Module ClientMore.
Section WithPeer.

Variable peer : nat -> request -> reply.

Lemma delay_nonneg (attempt : nat) : 0 <= RATE_LIMIT_DELAY * (Z.of_nat attempt + 1).
Proof. change RATE_LIMIT_DELAY with 100000. lia. Qed.

(** A round sends the request once and never sets the clock back. *)
Lemma attempt_body_round (req : request) (attempt : nat) (w : world) :
  requests_of (attempt_body peer req attempt w).2 = Get req :: requests_of w
  /\ now w <= now (attempt_body peer req attempt w).2.
Proof.
  pose proof (delay_nonneg attempt) as D.
  unfold attempt_body, on_exception.
  destruct (peer (requests_sent w) req) as [code hdr [j|]| |];
    repeat match goal with
      | |- context [if ?b then _ else _] => destruct b eqn:?
      | |- context [match ?h with NoRetryAfter => _ | _ => _ end] => destruct h
      end;
    (split; [reflexivity|]); cbn [snd now sleep record];
    unfold usec_per_second; try lia.
Qed.

Lemma for_attempts_requests (req : request) (range : list nat) (w : world) :
  exists k,
    (k <= length range)%nat
    /\ (range <> [] -> (1 <= k)%nat)
    /\ requests_of (for_attempts peer req range w).2
       = (repeat (Get req) k ++ requests_of w)%list
    /\ now w <= now (for_attempts peer req range w).2.
Proof.
  revert w. induction range as [|attempt rest IH]; intros w; cbn [for_attempts].
  - exists 0%nat. cbn. repeat split; [lia | congruence | lia].
  - destruct (attempt_body_round req attempt w) as [Hreq Hnow].
    destruct (attempt_body peer req attempt w) as [[|j|e] w1]; cbn [snd] in *.
    + destruct (IH w1) as (k & Hk & _ & Hk' & Hn). exists (S k).
      repeat split; [cbn [length]; lia | lia | | lia].
      rewrite Hk', Hreq. cbn [repeat].
      now rewrite (repeat_cons k (Get req)), <- app_assoc.
    + exists 1%nat. repeat split; [cbn [length]; lia | lia | exact Hreq | exact Hnow].
    + exists 1%nat. repeat split; [cbn [length]; lia | lia | exact Hreq | exact Hnow].
Qed.

(** The value a round returns is [None] or the body just received. *)
Lemma attempt_body_value (req : request) (attempt : nat) (w : world) (j : json) :
  (attempt_body peer req attempt w).1 = Return j ->
  j = JNull
  \/ exists h, peer (requests_sent w) req = Response 200 h (Some j).
Proof.
  unfold attempt_body.
  destruct (peer (requests_sent w) req) as [code hdr [b|]| |]; cbn [fst];
    try discriminate.
  - destruct (Z.eqb_spec code 200) as [->|_]; cbn [fst].
    + intros [= ->]. eauto.
    + destruct (code =? 429).
      * destruct hdr as [|secs|]; [| destruct (secs <? 0); [|destruct (MAX_SLEEP_SECONDS <? secs)]|]; discriminate.
      * destruct (400 <=? code); cbn [fst]; [intros [= <-]; now left | discriminate].
  - destruct (code =? 200); [discriminate|].
    destruct (code =? 429).
    + destruct hdr as [|secs|]; [| destruct (secs <? 0); [|destruct (MAX_SLEEP_SECONDS <? secs)]|]; discriminate.
    + destruct (400 <=? code); cbn [fst]; [intros [= <-]; now left | discriminate].
Qed.

Lemma for_attempts_value (req : request) (range : list nat) (w : world)
    (j : json) :
  (for_attempts peer req range w).1 = Ret j ->
  j = JNull
  \/ exists h,
       peer (Nat.pred (requests_sent (for_attempts peer req range w).2)) req
       = Response 200 h (Some j).
Proof.
  revert w. induction range as [|attempt rest IH]; intros w; cbn [for_attempts].
  - intros [= <-]. now left.
  - pose proof (attempt_body_value req attempt w) as V.
    pose proof (ClientFacts.attempt_body_frame peer req attempt w) as [_ _ _ Hs].
    destruct (attempt_body peer req attempt w) as [[|b|e] w1]; cbn [fst snd] in *.
    + apply IH.
    + intros [= <-]. rewrite Hs. cbn [Nat.pred]. now apply V.
    + discriminate.
Qed.

(** A call that gets a slot, as a whole. *)
Lemma make_api_request_frame (req : request) (w : world) :
  0 < permits w ->
  finished (make_api_request peer req w).1 = true
  /\ permits (make_api_request peer req w).2 = permits w
  /\ files (make_api_request peer req w).2 = files w
  /\ now w <= now (make_api_request peer req w).2
  /\ exists k,
       (1 <= k <= MAX_RETRIES)%nat
       /\ requests_of (make_api_request peer req w).2
          = (repeat (Get req) k ++ requests_of w)%list.
Proof.
  intros Hfree. apply Z.ltb_lt in Hfree.
  unfold make_api_request, with_semaphore. rewrite Hfree.
  destruct (for_attempts_requests req (seq 0 MAX_RETRIES) (acquire w))
    as (k & Hk & Hk1 & Hreq & Hnow).
  destruct (ClientFacts.for_attempts_frame peer req (seq 0 MAX_RETRIES) (acquire w))
    as [Hfin [Hperm Hfiles _ _]].
  rewrite length_seq in Hk.
  assert (Hrange : seq 0 MAX_RETRIES <> []) by discriminate.
  specialize (Hk1 Hrange).
  destruct (for_attempts peer req (seq 0 MAX_RETRIES) (acquire w)) as [[j|e| |] w'];
    cbn [fst snd finished] in *; try discriminate;
    (split; [reflexivity|]); (split; [cbn; rewrite Hperm; cbn; lia|]);
    (split; [assumption|]); (split; [assumption|]);
    exists k; (split; [lia | assumption]).
Qed.



End WithPeer.
End ClientMore.

(** A call that gets a slot sends its request at least once and at most
    three times, always the same request; it leaves the files alone and
    never sets the clock back. *)
Theorem client_sends_one_to_three_requests
    (peer : nat -> request -> reply) (req : request) (w : world) :
  0 < permits w ->
  exists k,
    (1 <= k <= MAX_RETRIES)%nat
    /\ requests_of (make_api_request peer req w).2
       = (repeat (Get req) k ++ requests_of w)%list
    /\ files (make_api_request peer req w).2 = files w
    /\ now w <= now (make_api_request peer req w).2.
Proof.
  intros Hfree.
  destruct (ClientMore.make_api_request_frame peer req w Hfree)
    as (_ & _ & Hfiles & Hnow & k & Hk & Hreq).
  exists k. auto.
Qed.

Lemma client_sends_one_to_three_requests_witness :
  exists k,
    (1 <= k <= MAX_RETRIES)%nat
    /\ requests_of (make_api_request peer_429_once (ListPrograms 1 PAGE_SIZE)
                      (fresh_world 0 ∅)).2
       = (repeat (Get (ListPrograms 1 PAGE_SIZE)) k
          ++ requests_of (fresh_world 0 ∅))%list
    /\ files (make_api_request peer_429_once (ListPrograms 1 PAGE_SIZE)
                (fresh_world 0 ∅)).2 = files (fresh_world 0 ∅)
    /\ now (fresh_world 0 ∅)
       <= now (make_api_request peer_429_once (ListPrograms 1 PAGE_SIZE)
                 (fresh_world 0 ∅)).2.
Proof.
  apply (client_sends_one_to_three_requests peer_429_once
           (ListPrograms 1 PAGE_SIZE) (fresh_world 0 ∅)).
  reflexivity.
Defined.

(** What a call returns is [None] or the decoded body of the 200
    response to the last request it sent. *)
Theorem client_returns_last_body
    (peer : nat -> request -> reply) (req : request) (w : world) (j : json) :
  (make_api_request peer req w).1 = Ret j ->
  j = JNull
  \/ exists h,
       peer (Nat.pred (requests_sent (make_api_request peer req w).2)) req
       = Response 200 h (Some j).
Proof.
  unfold make_api_request, with_semaphore.
  destruct (0 <? permits w); [|discriminate].
  pose proof (ClientMore.for_attempts_value peer req (seq 0 MAX_RETRIES)
                (acquire w) j) as V.
  destruct (for_attempts peer req (seq 0 MAX_RETRIES) (acquire w))
    as [[b|e| |] w']; cbn [fst snd] in *; try discriminate.
  intros [= ->]. now apply V.
Qed.

Lemma client_returns_last_body_witness :
  JStr "ok" = JNull
  \/ exists h,
       peer_429_once
         (Nat.pred (requests_sent
                      (make_api_request peer_429_once (ListPrograms 1 PAGE_SIZE)
                         (fresh_world 0 ∅)).2))
         (ListPrograms 1 PAGE_SIZE)
       = Response 200 h (Some (JStr "ok")).
Proof.
  apply (client_returns_last_body peer_429_once (ListPrograms 1 PAGE_SIZE)
           (fresh_world 0 ∅) (JStr "ok")).
  reflexivity.
Defined.

(** A response with a status of 400 or more other than 429 ends the
    call at once: [None], one request, no sleep, no retry. *)
Theorem client_error_status_no_retry
    (peer : nat -> request -> reply) (req : request) (w : world)
    (code : Z) (hdr : retry_after_header) (body : option json) :
  0 < permits w ->
  peer (requests_sent w) req = Response code hdr body ->
  400 <= code ->
  code <> 429 ->
  make_api_request peer req w
  = (Ret JNull, release (record (Get req) (acquire w))).
Proof.
  intros Hfree Hpeer Hcode Hne. apply Z.ltb_lt in Hfree.
  unfold make_api_request, with_semaphore. rewrite Hfree.
  cbn [seq MAX_RETRIES for_attempts]. unfold attempt_body at 1.
  change (requests_sent (acquire w)) with (requests_sent w). rewrite Hpeer.
  destruct (Z.eqb_spec code 200) as [->|_]; [lia|].
  destruct (Z.eqb_spec code 429) as [->|_]; [lia|].
  apply Z.leb_le in Hcode. rewrite Hcode. reflexivity.
Qed.

Lemma client_error_status_no_retry_witness :
  make_api_request peer_two_pages (ListScopes (JStr "acme") PAGE_SIZE)
    (fresh_world 0 ∅)
  = (Ret JNull,
     release (record (Get (ListScopes (JStr "acme") PAGE_SIZE))
                (acquire (fresh_world 0 ∅)))).
Proof.
  apply (client_error_status_no_retry peer_two_pages
           (ListScopes (JStr "acme") PAGE_SIZE) (fresh_world 0 ∅)
           404 NoRetryAfter None); [reflexivity | reflexivity | lia | lia].
Defined.

(** When the three requests of a call all fail at the network level,
    the call returns [None] after sleeping 0.1 s, 0.2 s and 0.3 s. *)
Theorem client_gives_up_after_three_failures
    (peer : nat -> request -> reply) (req : request) (w : world) :
  0 < permits w ->
  (forall n, (requests_sent w <= n < requests_sent w + 3)%nat ->
             peer n req = NetworkFailure) ->
  make_api_request peer req w
  = (Ret JNull,
     release
       (sleep 300000 (record (Get req)
          (sleep 200000 (record (Get req)
             (sleep 100000 (record (Get req) (acquire w)))))))).
Proof.
  intros Hfree Hpeer. apply Z.ltb_lt in Hfree.
  unfold make_api_request, with_semaphore. rewrite Hfree.
  cbn [seq MAX_RETRIES for_attempts].
  unfold attempt_body at 1.
  change (requests_sent (acquire w)) with (requests_sent w).
  rewrite Hpeer by lia.
  unfold attempt_body at 1.
  change (requests_sent (on_exception 0 (record (Get req) (acquire w))))
    with (S (requests_sent w)).
  rewrite Hpeer by lia.
  unfold attempt_body at 1.
  change (requests_sent
            (on_exception 1 (record (Get req)
               (on_exception 0 (record (Get req) (acquire w))))))
    with (S (S (requests_sent w))).
  rewrite Hpeer by lia.
  reflexivity.
Qed.

Lemma client_gives_up_after_three_failures_witness :
  make_api_request peer_down (ListPrograms 1 PAGE_SIZE) (fresh_world 0 ∅)
  = (Ret JNull,
     release
       (sleep 300000 (record (Get (ListPrograms 1 PAGE_SIZE))
          (sleep 200000 (record (Get (ListPrograms 1 PAGE_SIZE))
             (sleep 100000 (record (Get (ListPrograms 1 PAGE_SIZE))
                (acquire (fresh_world 0 ∅))))))))).
Proof.
  apply (client_gives_up_after_three_failures peer_down
           (ListPrograms 1 PAGE_SIZE) (fresh_world 0 ∅)).
  - reflexivity.
  - intros n _. reflexivity.
Defined.

(** ** The extractor and the world *)
Module ExtractMore.

Lemma collect_domains_world (data : json) (w : world) :
  finished (collect_domains data w).1 = true /\ (collect_domains data w).2 = w.
Proof.
  unfold collect_domains, bind, lift, ret.
  destruct (truthy data); [|now split].
  destruct (get data "data" JNull) as [d|e]; [|now split].
  destruct (truthy d); [|now split].
  destruct (getitem data "data") as [scope_data|e]; [|now split].
  destruct (iter scope_data) as [scopes|e]; [|now split].
  destruct (scan_scopes scopes empty_sets); now split.
Qed.

End ExtractMore.

(** With a free slot, a call of the extractor comes to an end, leaves
    the files and the semaphore as they were, never sets the clock
    back, and sends at most three requests, all of them for the scopes
    of the program's handle. *)
Theorem extractor_touches_only_the_scopes_endpoint
    (peer : nat -> request -> reply) (program : json) (w : world) :
  0 < permits w ->
  finished (extract_domains_from_program peer program w).1 = true
  /\ files (extract_domains_from_program peer program w).2 = files w
  /\ permits (extract_domains_from_program peer program w).2 = permits w
  /\ now w <= now (extract_domains_from_program peer program w).2
  /\ exists k,
       (k <= MAX_RETRIES)%nat
       /\ forall handle,
            handle_of program = Val handle ->
            requests_of (extract_domains_from_program peer program w).2
            = (repeat (Get (ListScopes handle PAGE_SIZE)) k ++ requests_of w)%list.
Proof.
  intros Hfree. unfold extract_domains_from_program.
  destruct (handle_of program) as [handle|e].
  - rewrite MonadFacts.bind_lift_val.
    destruct (truthy handle); cbn [negb].
    + destruct (ClientMore.make_api_request_frame peer
                  (ListScopes handle PAGE_SIZE) w Hfree)
        as (Hfin & Hperm & Hfiles & Hnow & k & Hk & Hreq).
      unfold bind.
      destruct (make_api_request peer (ListScopes handle PAGE_SIZE) w)
        as [[data|e| |] w1]; cbn [fst snd finished] in *; try discriminate.
      * destruct (ExtractMore.collect_domains_world data w1) as [Hc ->].
        repeat split; try assumption.
        exists k. split; [lia|]. now intros h [= <-].
      * repeat split; try assumption.
        exists k. split; [lia|]. now intros h [= <-].
    + repeat split; try reflexivity; try lia.
      exists 0%nat. split; [lia|]. reflexivity.
  - rewrite MonadFacts.bind_lift_exc.
    repeat split; try reflexivity; try lia.
    exists 0%nat. split; [lia|]. discriminate.
Qed.

Lemma extractor_touches_only_the_scopes_endpoint_witness :
  finished (extract_domains_from_program peer_foo
              (program_with_handle (JStr "acme")) (fresh_world 0 ∅)).1 = true
  /\ files (extract_domains_from_program peer_foo
              (program_with_handle (JStr "acme")) (fresh_world 0 ∅)).2
     = files (fresh_world 0 ∅)
  /\ permits (extract_domains_from_program peer_foo
                (program_with_handle (JStr "acme")) (fresh_world 0 ∅)).2
     = permits (fresh_world 0 ∅)
  /\ now (fresh_world 0 ∅)
     <= now (extract_domains_from_program peer_foo
               (program_with_handle (JStr "acme")) (fresh_world 0 ∅)).2
  /\ exists k,
       (k <= MAX_RETRIES)%nat
       /\ forall handle,
            handle_of (program_with_handle (JStr "acme")) = Val handle ->
            requests_of (extract_domains_from_program peer_foo
                           (program_with_handle (JStr "acme"))
                           (fresh_world 0 ∅)).2
            = (repeat (Get (ListScopes handle PAGE_SIZE)) k
               ++ requests_of (fresh_world 0 ∅))%list.
Proof.
  apply (extractor_touches_only_the_scopes_endpoint peer_foo
           (program_with_handle (JStr "acme")) (fresh_world 0 ∅)).
  reflexivity.
Defined.

(** ** Whole listings *)
Module PaginatorMore.




Lemma files_after_pages (first : Z) (count : nat) (w : world) :
  files (after_pages first count w) = files w.
Proof.
  revert first w. induction count as [|n IH]; intros first w; cbn [after_pages].
  - reflexivity.
  - now rewrite IH.
Qed.



End PaginatorMore.





(** A truthy listing body that is not an object (a list, a string, a
    number, [true]) makes [data.get] raise [AttributeError]; the run
    ends there and the cache file is not written. *)
Theorem listing_body_not_object_raises
    (peer : nat -> request -> reply) (fuel : nat) (w w1 : world) (data : json) :
  is_cache_valid PROGRAMS_CACHE_FILE w = Val false ->
  0 < permits w ->
  make_api_request peer (ListPrograms 1 PAGE_SIZE) w = (Ret data, w1) ->
  truthy data = true ->
  (forall fields, data <> JObj fields) ->
  fetch_all_programs peer (S fuel) w = (Raise AttributeError, w1)
  /\ files w1 = files w.
Proof.
  intros Hinvalid Hfree Hreq Htruthy Hshape. split.
  - unfold fetch_all_programs. rewrite Hinvalid. unfold refetch.
    apply MonadFacts.bind_raise.
    rewrite (PaginatorFacts.fetch_pages_round peer fuel 1 [] w w1 data Hreq).
    rewrite Htruthy. cbn [negb].
    destruct data as [| | | | |fields]; try reflexivity.
    now destruct (Hshape fields).
  - destruct (ClientMore.make_api_request_frame peer (ListPrograms 1 PAGE_SIZE)
                w Hfree) as (_ & _ & Hfiles & _).
    now rewrite Hreq in Hfiles.
Qed.

Lemma listing_body_not_object_raises_witness :
  fetch_all_programs peer_list_body 1 (fresh_world 0 ∅)
  = (Raise AttributeError,
     release (record (Get (ListPrograms 1 PAGE_SIZE)) (acquire (fresh_world 0 ∅))))
  /\ files (release (record (Get (ListPrograms 1 PAGE_SIZE))
                       (acquire (fresh_world 0 ∅))))
     = files (fresh_world 0 ∅).
Proof.
  apply (listing_body_not_object_raises peer_list_body 0 (fresh_world 0 ∅)
           (release (record (Get (ListPrograms 1 PAGE_SIZE))
                       (acquire (fresh_world 0 ∅))))
           (JArr [JStr "x"])); try reflexivity.
  intros fields. discriminate.
Defined.

(** ** The cache file *)

(** An invalid cache stays invalid as the clock moves on, as long as
    the file is not written. *)
Theorem cache_stays_invalid (path : string) (w w' : world) :
  is_cache_valid path w = Val false ->
  files w' !! path = files w !! path ->
  now w <= now w' ->
  is_cache_valid path w' = Val false.
Proof.
  unfold is_cache_valid. intros H -> Hnow.
  destruct (files w !! path) as [f|]; [|reflexivity].
  destruct (fromtimestamp (mtime f)) as [cache_time|e]; [|discriminate H].
  injection H as H. f_equal.
  apply Z.ltb_ge in H. apply Z.ltb_ge. lia.
Qed.

Lemma cache_stays_invalid_witness :
  is_cache_valid PROGRAMS_CACHE_FILE
    (sleep 5 (fresh_world (31 * usec_per_day) garbage_cache)) = Val false.
Proof.
  apply (cache_stays_invalid PROGRAMS_CACHE_FILE
           (fresh_world (31 * usec_per_day) garbage_cache)
           (sleep 5 (fresh_world (31 * usec_per_day) garbage_cache)));
    [vm_compute; reflexivity | reflexivity | cbn; lia].
Defined.

(** ** The output files *)
Module RenderFacts.

Lemma sorted_member (names : gset string) (d : string) :
  d ∈ sorted names <-> d ∈ names.
Proof.
  unfold sorted. rewrite merge_sort_Permutation. apply elem_of_elements.
Qed.

Lemma sorted_nonempty (names : gset string) :
  names <> ∅ -> sorted names <> [].
Proof.
  intros Hne E. apply Hne. apply leibniz_equiv, elements_empty_iff.
  apply Permutation_nil_r. unfold sorted in E. rewrite <- E.
  symmetry. apply merge_sort_Permutation.
Qed.

End RenderFacts.

(** The text written for a non-empty set whose names hold no line feed
    splits at line feeds into exactly the names of the set, each once,
    in ascending order. *)
Theorem output_lines_are_the_sorted_names (names : gset string) :
  names <> ∅ ->
  (forall d, d ∈ names -> PyStr.contains line_feed d = false) ->
  PyStr.split (render names) line_feed = sorted names
  /\ Sorted String.le (sorted names)
  /\ NoDup (sorted names)
  /\ (forall d, d ∈ sorted names <-> d ∈ names).
Proof.
  intros Hne Hfree. split; [|split; [|split]].
  - unfold render, line_feed. rewrite SplitFacts.split_char.
    apply SplitFacts.pieces_join.
    + now apply RenderFacts.sorted_nonempty.
    + apply Forall_forall. intros d Hd.
      apply Hfree. now apply RenderFacts.sorted_member.
  - apply Sorted_merge_sort. apply _.
  - unfold sorted. rewrite merge_sort_Permutation. apply NoDup_elements.
  - apply RenderFacts.sorted_member.
Qed.

Lemma output_lines_are_the_sorted_names_witness :
  PyStr.split (render ({["b.example.com"; "a.example.com"]} : gset string))
    line_feed
  = sorted {["b.example.com"; "a.example.com"]}
  /\ Sorted String.le (sorted {["b.example.com"; "a.example.com"]})
  /\ NoDup (sorted {["b.example.com"; "a.example.com"]})
  /\ (forall d, d ∈ sorted {["b.example.com"; "a.example.com"]}
                <-> d ∈ ({["b.example.com"; "a.example.com"]} : gset string)).
Proof.
  apply (output_lines_are_the_sorted_names {["b.example.com"; "a.example.com"]}).
  - intros E. assert (H : "b.example.com" ∈ (∅ : gset string)).
    { rewrite <- E. apply elem_of_union_l, elem_of_singleton. reflexivity. }
    now apply elem_of_empty in H.
  - intros d Hd. apply elem_of_union in Hd as [Hd|Hd];
      apply elem_of_singleton in Hd; subst; reflexivity.
Defined.

Example render_two_names :
  render {["b.example.com"; "a.example.com"]}
  = "a.example.com" +:+ line_feed +:+ "b.example.com".
Proof. vm_compute. reflexivity. Qed.

(** An empty set gives an empty file, which reads back as one empty
    line. *)
Example render_empty :
  render ∅ = "" /\ PyStr.split (render ∅) line_feed = [""].
Proof. split; reflexivity. Qed.

(** ** The order of the scope entries *)
Module ScanOrder.

Lemma add_domain_merge (c : category) (d : string) (sets : domain_sets) :
  add_domain c d sets = merge sets (add_domain c d empty_sets).
Proof.
  destruct sets as [s1 s2 s3]. destruct c; unfold add_domain, merge; cbn;
    f_equal; rewrite ?(right_id_L ∅ (∪)); try reflexivity; apply (comm_L (∪)).
Qed.

Lemma merge_empty_r (sets : domain_sets) : merge sets empty_sets = sets.
Proof.
  destruct sets. unfold merge. cbn. f_equal; apply (right_id_L ∅ (∪)).
Qed.

(** What an entry adds does not depend on what is already there. *)
Lemma scan_scope_merge (scope : json) (domains : domain_sets) :
  scan_scope scope domains
  = and_then (scan_scope scope empty_sets) (fun e => Val (merge domains e)).
Proof.
  unfold scan_scope.
  destruct (get scope "attributes" (JObj [])) as [attributes|e];
    cbn [and_then]; [|reflexivity].
  destruct (get attributes "asset_type" JNull) as [asset_type|e];
    cbn [and_then]; [|reflexivity].
  destruct (eq_str asset_type "URL");
    [|cbn [and_then]; now rewrite merge_empty_r].
  destruct (getitem scope "attributes") as [attributes'|e];
    cbn [and_then]; [|reflexivity].
  destruct (getitem attributes' "asset_identifier") as [url|e];
    cbn [and_then]; [|reflexivity].
  destruct (domain_of_url url) as [domain|e]; cbn [and_then]; [|reflexivity].
  destruct (negb (String.eqb domain ""));
    [|cbn [and_then]; now rewrite merge_empty_r].
  destruct (categorize_domain domain) as [c|]; cbn [and_then].
  - now rewrite add_domain_merge.
  - now rewrite merge_empty_r.
Qed.

End ScanOrder.

(** The sets gathered from a list of scope entries do not depend on the
    order of the entries. *)
Theorem scan_is_order_independent
    (scopes scopes' : list json) (domains result : domain_sets) :
  Permutation scopes scopes' ->
  scan_scopes scopes domains = Val result ->
  scan_scopes scopes' domains = Val result.
Proof.
  intros P. revert domains result.
  induction P as [|x l l' _ IH|x y l|l1 l2 l3 _ IH1 _ IH2];
    intros domains result H.
  - exact H.
  - cbn [scan_scopes] in *.
    destruct (scan_scope x domains) as [d1|e]; cbn [and_then] in *;
      [now apply IH | discriminate].
  - cbn [scan_scopes] in *.
    rewrite (ScanOrder.scan_scope_merge y domains) in H.
    rewrite (ScanOrder.scan_scope_merge x domains).
    destruct (scan_scope y empty_sets) as [ey|e] eqn:Ey; cbn [and_then] in H;
      [|discriminate].
    rewrite (ScanOrder.scan_scope_merge x (merge domains ey)) in H.
    destruct (scan_scope x empty_sets) as [ex|e] eqn:Ex; cbn [and_then] in *;
      [|discriminate].
    rewrite (ScanOrder.scan_scope_merge y (merge domains ex)), Ey.
    cbn [and_then]. now rewrite MergeFacts.merge_swap.
  - now apply IH2, IH1.
Qed.

Lemma scan_is_order_independent_witness :
  scan_scopes [JObj []; foo_entry] empty_sets
  = Val (add_domain standard "foo.example.com:443" empty_sets).
Proof.
  apply (scan_is_order_independent [foo_entry; JObj []] [JObj []; foo_entry]
           empty_sets (add_domain standard "foo.example.com:443" empty_sets)).
  - apply perm_swap.
  - reflexivity.
Defined.
